(** * The WhatsApp direct-URL uploader bot ([src/bot.js])

    A shallow embedding of the message handler of the bot and of the
    commands it dispatches to, together with the properties of its
    specification.

    Strings are sequences of 8-bit characters ([string] of the Standard
    Library); [toLowerCase] is the ASCII case mapping.  The allow-list is
    the JavaScript [Set] in its insertion order.  The file system is a
    finite map from paths to nodes.  Whatever the outside world decides
    (the HTTP response, the outcome of a write stream, of sending an
    attachment, of a synchronous file write, the clock) is read from a
    record [Extern] that the handler receives next to the message.

    The handler runs in a small monad with the program state, the
    exceptions of [try]/[catch] and the list of the effects performed, in
    the order in which they happen.  The listeners of the write stream run
    to their end as part of the command that installed them.  The calls of
    the messaging client that the code does not guard ([message.reply],
    [getChat], [getContact], [getQuotedMessage], [getChatById]) and
    [fs.mkdirSync] are taken to succeed. *)

From Stdlib Require Import String Ascii List NArith DecimalString Bool Lia.
From Stdlib Require DecimalN DecimalPos.
From stdpp Require Import gmap strings.

(** ** JavaScript string primitives used by the bot *)

Module JS.

Definition LF : ascii := "010"%char.
Definition CR : ascii := "013"%char.
Definition DQUOTE : ascii := "034"%char.
Definition SPACE : ascii := " "%char.
Definition SLASH : ascii := "/"%char.

Definition nl : string := String LF EmptyString.

(** [String.prototype.toLowerCase], on ASCII letters. *)
Definition toLowerChar (c : ascii) : ascii :=
  let n := N_of_ascii c in
  if ((65 <=? n) && (n <=? 90))%N then ascii_of_N (n + 32) else c.

Fixpoint toLowerCase (s : string) : string :=
  match s with
  | EmptyString => EmptyString
  | String c s' => String (toLowerChar c) (toLowerCase s')
  end.

(** What follows the prefix [p] in [s], when [s] starts with [p]. *)
Fixpoint dropPrefix (p s : string) : option string :=
  match p, s with
  | EmptyString, _ => Some s
  | String a p', String b s' =>
      if Ascii.eqb a b then dropPrefix p' s' else None
  | String _ _, EmptyString => None
  end.

(** [s.startsWith(p)]. *)
Definition startsWith (p s : string) : bool :=
  match dropPrefix p s with Some _ => true | None => false end.

(** [s.split(sep)] for a separator of one character: the pieces between
    the occurrences of [sep], empty pieces included; never the empty
    array. *)
Fixpoint split (sep : ascii) (s : string) : list string :=
  match s with
  | EmptyString => [EmptyString]
  | String c s' =>
      if Ascii.eqb c sep then EmptyString :: split sep s'
      else match split sep s' with
           | p :: ps => String c p :: ps
           | [] => [String c EmptyString]
           end
  end.

(** [s.substring(1)]. *)
Definition substring1 (s : string) : string :=
  match s with
  | EmptyString => EmptyString
  | String _ s' => s'
  end.

(** [a.slice(1)]. *)
Definition slice1 {A} (l : list A) : list A := tail l.

(** [a.join(sep)] for a separator of one character. *)
Fixpoint join (sep : ascii) (l : list string) : string :=
  match l with
  | [] => EmptyString
  | [p] => p
  | p :: ps => p +:+ String sep (join sep ps)
  end.

(** A template literal of a non-negative integer: its decimal digits. *)
Definition decimal (n : N) : string := NilZero.string_of_uint (N.to_uint n).

(** [.] of a regular expression: any character but a line terminator. *)
Definition isLineTerminator (c : ascii) : bool :=
  Ascii.eqb c LF || Ascii.eqb c CR.

(** The longest run matched by [.*] at the start of [s]. *)
Fixpoint dotStar (s : string) : string :=
  match s with
  | EmptyString => EmptyString
  | String c s' =>
      if isLineTerminator c then EmptyString else String c (dotStar s')
  end.

Definition nonEmpty (s : string) : bool :=
  match s with EmptyString => false | String _ _ => true end.

End JS.

(** ** [path.join] of Node.js (POSIX) *)

Module Path.

(** The segments of a normalized path, last one first: empty segments
    and [.] vanish; [..] removes the segment before it, and stays when
    there is none to remove (the path is relative). *)
Definition pushSegment (acc : list string) (seg : string) : list string :=
  if String.eqb seg EmptyString || String.eqb seg "." then acc
  else if String.eqb seg ".." then
    match acc with
    | [] => [".."]
    | top :: rest => if String.eqb top ".." then ".." :: acc else rest
    end
  else seg :: acc.

Definition normalizeSegments (segs : list string) : list string :=
  rev (fold_left pushSegment segs []).

Definition endsWithSlash (p : string) : bool :=
  match rev (list_ascii_of_string p) with
  | c :: _ => Ascii.eqb c JS.SLASH
  | [] => false
  end.

(** [path.normalize] on a relative path. *)
Definition normalize (p : string) : string :=
  let inner := JS.join JS.SLASH (normalizeSegments (JS.split JS.SLASH p)) in
  if JS.nonEmpty inner
  then if endsWithSlash p then inner +:+ "/" else inner
  else if endsWithSlash p then "./" else ".".

(** [path.join(dir, name)] for a relative, non-empty [dir]. *)
Definition join (dir name : string) : string :=
  if JS.nonEmpty name then normalize (dir +:+ "/" +:+ name)
  else normalize dir.

End Path.

(** ** Parsing of a command message (lines 85-87) *)

(** [message.body.split(' ')[0].substring(1).toLowerCase()] *)
Definition parseCommand (body : string) : string :=
  JS.toLowerCase (JS.substring1 (hd EmptyString (JS.split JS.SPACE body))).

(** [message.body.split(' ').slice(1)] *)
Definition parseArgs (body : string) : list string :=
  JS.slice1 (JS.split JS.SPACE body).

(** ** Program state, messages and the outside world *)

(** What a file holds: bytes, the bytes that a base64 text decodes to
    ([Buffer.from(data, 'base64')]), or the text [JSON.stringify(l)] of an
    array of strings, kept as the array. *)
Inductive Content :=
| Bytes (s : string)
| FromBase64 (data : string)
| JsonArray (l : list string).

Inductive FsNode :=
| Dir
| File (c : Content).

(** The module-level variables [allowedGroups] and [isBotReady], and the
    files on disk. *)
Record World := mkWorld {
  allowedGroups : list string;
  isBotReady : bool;
  files : gmap string FsNode
}.

Definition setAllowedGroups (l : list string) (w : World) : World :=
  mkWorld l (isBotReady w) (files w).
Definition setReady (b : bool) (w : World) : World :=
  mkWorld (allowedGroups w) b (files w).
Definition setFiles (f : gmap string FsNode) (w : World) : World :=
  mkWorld (allowedGroups w) (isBotReady w) f.

(** The [Set] of JavaScript on strings, in insertion order. *)
Module JSSet.
Definition has (x : string) (s : list string) : bool := bool_decide (x ∈ s).
Definition add (x : string) (s : list string) : list string :=
  if has x s then s else s ++ [x].
Definition delete (x : string) (s : list string) : list string :=
  filter (λ y, y ≠ x) s.
Definition size (s : list string) : N := N.of_nat (length s).
End JSSet.

Record Chat := mkChat {
  chat_id : string;          (* chat.id._serialized *)
  isGroup : bool;
  chat_name : string
}.

Record Media := mkMedia {
  mimetype : string;
  data : string
}.

(** What [quotedMsg.downloadMedia()] does: rejects, resolves to nothing,
    or resolves to the attachment. *)
Inductive MediaResult :=
| MediaRejects
| MediaNone
| MediaSome (m : Media).

Record QuotedMsg := mkQuoted {
  hasMedia : bool;
  downloadMedia : MediaResult
}.

Record Message := mkMessage {
  from : string;
  body : string;
  chat : Chat;               (* what message.getChat() resolves to *)
  hasQuotedMsg : bool;
  quoted : QuotedMsg         (* what message.getQuotedMessage() resolves to *)
}.

Record HttpResponse := mkResponse {
  contentDisposition : option string;   (* headers['content-disposition'] *)
  responseBody : string
}.

(** How the write stream fed by the response ends: ['finish']; ['error']
    before the file was created; ['error'] after [written] characters. *)
Inductive StreamOutcome :=
| StreamFinish
| StreamOpenError
| StreamWriteError (written : nat).

(** How relaying the downloaded file goes: sent;
    [MessageMedia.fromFilePath] throws; [client.sendMessage] rejects. *)
Inductive SendOutcome :=
| SendOk
| MediaBuildFails
| SendRejects.

Record Extern := mkExtern {
  axiosGet : string -> option HttpResponse;   (* None: the request fails *)
  streamOutcome : StreamOutcome;
  sendOutcome : SendOutcome;
  writeSucceeds : string -> bool;              (* fs.writeFileSync on a path *)
  failedWriteLeaves : string -> option Content;
    (* a failed fs.writeFileSync: None when the file could not be opened,
       Some c when the write broke off after the file was opened, and so
       created or truncated, and left c in it *)
  dateNow : N;                                 (* Date.now() *)
  chatNameById : string -> string;             (* client.getChatById(id).name *)
  envPORT : option string;                     (* process.env.PORT *)
  envBASE_URL : option string                  (* process.env.BASE_URL *)
}.

(** The effects of the bot, as the outside world sees them. *)
Inductive Event :=
| GetChat
| GetContact
| GetQuotedMessage
| DownloadMedia
| GetChatById (id : string)
| Reply (text : string)
| SendText (to text : string)
| SendMedia (to path caption : string)
| HttpGet (url : string)
| MkDir (path : string)
| CreateWriteStream (path : string)
| WriteFile (path : string) (c : Content)
| Unlink (path : string)
| ConsoleError (label : string).


Definition isNetwork (e : Event) : bool :=
  match e with HttpGet _ => true | _ => false end.

Definition isFsWrite (e : Event) : bool :=
  match e with
  | MkDir _ | CreateWriteStream _ | WriteFile _ _ | Unlink _ => true
  | _ => false
  end.

(** ** The monad: state, exceptions and the effects performed *)

Inductive Result (A : Type) :=
| Ok (a : A)
| Thrown.
Arguments Ok {A} a.
Arguments Thrown {A}.

Definition M (A : Type) : Type := World -> Result A * World * list Event.

Definition ret {A} (a : A) : M A := fun w => (Ok a, w, []).

Definition bind {A B} (m : M A) (k : A -> M B) : M B :=
  fun w =>
    match m w with
    | (Ok a, w1, t1) =>
        match k a w1 with (r, w2, t2) => (r, w2, t1 ++ t2) end
    | (Thrown, w1, t1) => (Thrown, w1, t1)
    end.

Definition throw {A} : M A := fun w => (Thrown, w, []).

(** [try { m } catch (error) { h }] *)
Definition tryCatch {A} (m : M A) (h : M A) : M A :=
  fun w =>
    match m w with
    | (Ok a, w1, t1) => (Ok a, w1, t1)
    | (Thrown, w1, t1) =>
        match h w1 with (r, w2, t2) => (r, w2, t1 ++ t2) end
    end.

Definition emit (e : Event) : M unit := fun w => (Ok tt, w, [e]).
Definition getWorld : M World := fun w => (Ok w, w, []).
Definition modify (f : World -> World) : M unit := fun w => (Ok tt, f w, []).

Declare Scope bot_scope.
Delimit Scope bot_scope with bot.
Notation "x <- m ;; k" := (bind m (fun x => k))
  (at level 100, m at next level, right associativity) : bot_scope.
Notation "m ;; k" := (bind m (fun _ => k))
  (at level 100, right associativity) : bot_scope.
Local Open Scope bot_scope.

Definition resultOf {A} (o : Result A * World * list Event) : Result A := o.1.1.
Definition worldOf {A} (o : Result A * World * list Event) : World := o.1.2.
Definition eventsOf {A} (o : Result A * World * list Event) : list Event := o.2.

(** ** Primitive operations *)

Definition reply (text : string) : M unit := emit (Reply text).

(** [fs.existsSync(path)] *)
Definition existsSync (path : string) : M bool :=
  fun w => (Ok (bool_decide (is_Some (files w !! path))), w, []).

(** [fs.mkdirSync(path)] *)
Definition mkdirSync (path : string) : M unit :=
  fun w => (Ok tt, setFiles (<[path := Dir]> (files w)) w, [MkDir path]).

(** The disk after a failed [fs.writeFileSync(path, ...)]: as it was when
    the file could not be opened; with the file created or truncated, and
    holding what was written, when the write broke off later. *)
Definition afterFailedWrite (x : Extern) (path : string) (w : World) : World :=
  match failedWriteLeaves x path with
  | Some partial => setFiles (<[path := File partial]> (files w)) w
  | None => w
  end.

(** What a failed [fs.writeFileSync(path, ...)] did to the disk. *)
Definition failedWriteEvents (x : Extern) (path : string) : list Event :=
  match failedWriteLeaves x path with
  | Some partial => [WriteFile path partial]
  | None => []
  end.

(** [fs.writeFileSync(path, content)].  Whether the write can be done is
    for the outside world to say (the directory of the path is there, the
    file may be written, the disk has room).  A write that fails throws. *)
Definition writeFileSync (x : Extern) (path : string) (c : Content) : M unit :=
  fun w =>
    if writeSucceeds x path
    then (Ok tt, setFiles (<[path := File c]> (files w)) w, [WriteFile path c])
    else (Thrown, afterFailedWrite x path w, failedWriteEvents x path).

(** [fs.unlinkSync(path)]: throws when there is no such file. *)
Definition unlinkSync (path : string) : M unit :=
  fun w =>
    match files w !! path with
    | Some (File _) => (Ok tt, setFiles (delete path (files w)) w, [Unlink path])
    | _ => (Thrown, w, [])
    end.

(** [axios({ method: 'GET', url, responseType: 'stream' })] *)
Definition axios (x : Extern) (url : string) : M HttpResponse :=
  fun w =>
    match axiosGet x url with
    | Some r => (Ok r, w, [HttpGet url])
    | None => (Thrown, w, [HttpGet url])
    end.

Inductive WriterEvent :=
| OnFinish
| OnError.

(** [fs.createWriteStream(filePath)] fed by [response.data.pipe(writer)],
    up to the event that the writer emits.  Opening fails on a directory;
    otherwise the file is created, and holds what was written when the
    writer stopped. *)
Definition pipeToFile (x : Extern) (path body : string) : M WriterEvent :=
  fun w =>
    match files w !! path, streamOutcome x with
    | Some Dir, _ => (Ok OnError, w, [CreateWriteStream path])
    | _, StreamOpenError => (Ok OnError, w, [CreateWriteStream path])
    | _, StreamWriteError n =>
        (Ok OnError,
         setFiles (<[path := File (Bytes (String.substring 0 n body))]> (files w)) w,
         [CreateWriteStream path])
    | _, StreamFinish =>
        (Ok OnFinish,
         setFiles (<[path := File (Bytes body)]> (files w)) w,
         [CreateWriteStream path])
    end.

(** [MessageMedia.fromFilePath(filePath)] followed by
    [client.sendMessage(to, media, { caption })] *)
Definition sendFile (x : Extern) (to path caption : string) : M unit :=
  fun w =>
    match sendOutcome x with
    | SendOk => (Ok tt, w, [SendMedia to path caption])
    | MediaBuildFails => (Thrown, w, [])
    | SendRejects => (Thrown, w, [])
    end.

(** [a || b] on a string that may be undefined. *)
Definition orElse (a : option string) (b : string) : string :=
  match a with
  | Some s => if JS.nonEmpty s then s else b
  | None => b
  end.

(** ** Constants (lines 11 and 43) *)

Definition OWNER_NUMBER : string := "+94760761047".

(** [process.env.PORT || 3000], as a template literal prints it. *)
Definition port (x : Extern) : string := orElse (envPORT x) "3000".

(** ** The reply texts *)

Module Text.
Definition unknown : string :=
  "Unknown command. Type !help for available commands.".
Definition groupAdded : string :=
  "This group has been added to the allowed list.".
Definition groupRemoved : string :=
  "This group has been removed from the allowed list.".
Definition groupsOnly : string :=
  "This command can only be used in groups.".
Definition noGroups : string := "No groups are currently allowed.".
Definition provideUrl : string :=
  "Please provide a URL. Usage: !download <url>".
Definition downloading : string := "Downloading file...".
Definition sendFailed : string :=
  "Failed to send the file. It might be too large or in an unsupported format.".
Definition downloadFailed : string :=
  "Failed to download the file. Please check the URL and try again.".
Definition replyToFile : string :=
  "Please reply to a file with this command to upload it.".
Definition noFile : string := "The quoted message does not contain a file.".
Definition processing : string := "Processing file...".
Definition mediaFailed : string := "Failed to download the file.".
Definition uploadFailed : string := "Failed to upload the file.".
Definition online : string := "Bot is now online and ready!".
End Text.

(** ** The commands (lines 118-293) *)

Definition showHelp (isOwner : bool) : M unit :=
  let helpText :=
    "*Bot Commands:*" +:+ JS.nl +:+ JS.nl
    +:+ "*!download <url>* - Download file from URL" +:+ JS.nl
    +:+ "*!upload* - Reply to a file with this command to get a direct download link"
    +:+ JS.nl in
  let helpText :=
    if isOwner then
      helpText +:+ JS.nl +:+ "*Owner Commands:*" +:+ JS.nl +:+ JS.nl
      +:+ "*!addgroup* - Add current group to allowed list" +:+ JS.nl
      +:+ "*!removegroup* - Remove current group from allowed list" +:+ JS.nl
      +:+ "*!listgroups* - List all allowed groups" +:+ JS.nl
      +:+ "*!status* - Show bot status" +:+ JS.nl
    else helpText in
  reply helpText.

(** Lines 309-316. *)
Definition saveAllowedGroups (x : Extern) : M unit :=
  tryCatch
    (w <- getWorld ;;
     let groupsArray := allowedGroups w in
     writeFileSync x "allowed-groups.json" (JsonArray groupsArray))
    (emit (ConsoleError "Error saving allowed groups:")).

Definition addGroup (x : Extern) (message : Message) : M unit :=
  emit GetChat ;;
  let chat := chat message in
  if isGroup chat then
    modify (fun w => setAllowedGroups (JSSet.add (chat_id chat) (allowedGroups w)) w) ;;
    reply Text.groupAdded ;;
    saveAllowedGroups x
  else reply Text.groupsOnly.

Definition removeGroup (x : Extern) (message : Message) : M unit :=
  emit GetChat ;;
  let chat := chat message in
  if isGroup chat then
    modify (fun w => setAllowedGroups (JSSet.delete (chat_id chat) (allowedGroups w)) w) ;;
    reply Text.groupRemoved ;;
    saveAllowedGroups x
  else reply Text.groupsOnly.

(** The loop of [listGroups] over the set, with the text built so far. *)
Fixpoint listGroupsLoop (x : Extern) (ids : list string) (groupList : string)
  : M string :=
  match ids with
  | [] => ret groupList
  | groupId :: rest =>
      emit (GetChatById groupId) ;;
      listGroupsLoop x rest
        (groupList +:+ "- " +:+ chatNameById x groupId +:+ JS.nl)
  end.

Definition listGroups (x : Extern) : M unit :=
  w <- getWorld ;;
  if (JSSet.size (allowedGroups w) =? 0)%N then reply Text.noGroups
  else
    groupList <- listGroupsLoop x (allowedGroups w)
                   ("*Allowed Groups:*" +:+ JS.nl +:+ JS.nl) ;;
    reply groupList.

(** [contentDisposition.match(/filename="?(.+)"?/)] at one position: the
    group [(.+)] is greedy and runs to the end of the line, so that the
    closing quote, when there is one, is part of it. *)
Definition matchFilenameAt (s : string) : option string :=
  match JS.dropPrefix "filename=" s with
  | None => None
  | Some r =>
      let afterQuote :=
        match r with
        | String c r' =>
            if Ascii.eqb c JS.DQUOTE && JS.nonEmpty (JS.dotStar r')
            then Some (JS.dotStar r') else None
        | EmptyString => None
        end in
      match afterQuote with
      | Some cap => Some cap
      | None => if JS.nonEmpty (JS.dotStar r) then Some (JS.dotStar r) else None
      end
  end.

(** The first position at which the expression matches; the result is the
    group [filenameMatch[1]]. *)
Fixpoint matchFilename (s : string) : option string :=
  match matchFilenameAt s with
  | Some cap => Some cap
  | None =>
      match s with
      | EmptyString => None
      | String _ s' => matchFilename s'
      end
  end.

(** Lines 193-199: the file name from the URL or from the header. *)
Definition downloadFilename (url : string) (response : HttpResponse) : string :=
  let filename := List.last (JS.split JS.SLASH url) EmptyString in
  match contentDisposition response with
  | Some cd =>
      if JS.nonEmpty cd then
        match matchFilename cd with
        | Some cap => cap
        | None => filename
        end
      else filename
  | None => filename
  end.

(** The listener of ['finish'] (lines 212-230). *)
Definition onWriterFinish (x : Extern) (message : Message)
    (filePath filename : string) : M unit :=
  tryCatch
    (sendFile x (from message) filePath
       ("Here's your downloaded file: " +:+ filename) ;;
     unlinkSync filePath)
    (emit (ConsoleError "Error sending file:") ;;
     reply Text.sendFailed ;;
     e <- existsSync filePath ;;
     if e then unlinkSync filePath else ret tt).

(** The listener of ['error'] (lines 232-235). *)
Definition onWriterError : M unit :=
  emit (ConsoleError "Error downloading file:") ;;
  reply Text.downloadFailed.

(** The [try] block of lines 183-236, up to the event that the writer
    emits; [None] when the block was left through its [catch]. *)
Definition downloadStart (x : Extern) (url : string)
  : M (option (string * string * WriterEvent)) :=
  tryCatch
    (reply Text.downloading ;;
     response <- axios x url ;;
     let filename := downloadFilename url response in
     let tempDir := "temp" in
     e <- existsSync tempDir ;;
     (if negb e then mkdirSync tempDir else ret tt) ;;
     let filePath := Path.join tempDir filename in
     ev <- pipeToFile x filePath (responseBody response) ;;
     ret (Some (filePath, filename, ev)))
    (emit (ConsoleError "Error downloading file:") ;;
     reply Text.downloadFailed ;;
     ret None).

(** Lines 175-240.  The two listeners run after the [try] block has been
    left: what they throw does not reach its [catch]. *)
Definition downloadFile (x : Extern) (message : Message) (args : list string)
  : M unit :=
  match args with
  | [] => reply Text.provideUrl
  | url :: _ =>
      started <- downloadStart x url ;;
      match started with
      | Some (filePath, filename, OnFinish) =>
          onWriterFinish x message filePath filename
      | Some (_, _, OnError) => onWriterError
      | None => ret tt
      end
  end.

(** [media.mimetype.split('/')[1]], as the template literal prints it. *)
Definition extensionOf (mimetype : string) : string :=
  nth 1 (JS.split JS.SLASH mimetype) "undefined".

(** [`file-${Date.now()}.${extension}`] *)
Definition uploadFilename (now : N) (mimetype : string) : string :=
  "file-" +:+ JS.decimal now +:+ "." +:+ extensionOf mimetype.

(** [process.env.BASE_URL || `http://localhost:${port}`] *)
Definition baseUrl (x : Extern) : string :=
  orElse (envBASE_URL x) ("http://localhost:" +:+ port x).

Definition directLink (x : Extern) (filename : string) : string :=
  baseUrl x +:+ "/uploads/" +:+ filename.

Definition uploadedText (link : string) : string :=
  "File uploaded successfully!" +:+ JS.nl +:+ "Direct download link: " +:+ link.

(** Lines 242-283. *)
Definition uploadFile (x : Extern) (message : Message) : M unit :=
  if negb (hasQuotedMsg message) then reply Text.replyToFile
  else
    emit GetQuotedMessage ;;
    let quotedMsg := quoted message in
    if negb (hasMedia quotedMsg) then reply Text.noFile
    else
      tryCatch
        (reply Text.processing ;;
         emit DownloadMedia ;;
         match downloadMedia quotedMsg with
         | MediaRejects => throw
         | MediaNone => reply Text.mediaFailed
         | MediaSome media =>
             let filename := uploadFilename (dateNow x) (mimetype media) in
             let filePath := Path.join "uploads" filename in
             writeFileSync x filePath (FromBase64 (data media)) ;;
             reply (uploadedText (directLink x filename))
         end)
        (emit (ConsoleError "Error uploading file:") ;;
         reply Text.uploadFailed).

Definition statusText (ready : bool) (size : N) : string :=
  let status := if ready then "Online" else "Offline" in
  "*Bot Status:* " +:+ status +:+ JS.nl +:+ JS.nl
  +:+ "*Allowed Groups:* " +:+ JS.decimal size +:+ JS.nl.

(** Lines 285-293. *)
Definition showStatus (isOwner : bool) : M unit :=
  if negb isOwner then ret tt
  else
    w <- getWorld ;;
    reply (statusText (isBotReady w) (JSSet.size (allowedGroups w))).

(** ** The message handler (lines 71-115) *)

Definition dispatch (x : Extern) (message : Message) (isOwner : bool)
    (command : string) (args : list string) : M unit :=
  if String.eqb command "help" then showHelp isOwner
  else if String.eqb command "addgroup" then
    (if isOwner then addGroup x message else ret tt)
  else if String.eqb command "removegroup" then
    (if isOwner then removeGroup x message else ret tt)
  else if String.eqb command "listgroups" then
    (if isOwner then listGroups x else ret tt)
  else if String.eqb command "download" then downloadFile x message args
  else if String.eqb command "upload" then uploadFile x message
  else if String.eqb command "status" then showStatus isOwner
  else reply Text.unknown.

Definition onMessage (x : Extern) (message : Message) : M unit :=
  if String.eqb (from message) "status@broadcast" then ret tt
  else
    emit GetChat ;;
    emit GetContact ;;
    w <- getWorld ;;
    let isOwner := String.eqb (from message) OWNER_NUMBER in
    let isAllowedGroup := JSSet.has (chat_id (chat message)) (allowedGroups w) in
    if negb isOwner && negb isAllowedGroup then ret tt
    else if JS.startsWith "!" (body message) then
      let command := parseCommand (body message) in
      let args := parseArgs (body message) in
      dispatch x message isOwner command args
    else ret tt.

(** ** The other listeners and the start-up (lines 56-68, 296-306) *)

Definition onReady : M unit :=
  modify (setReady true) ;;
  emit (SendText OWNER_NUMBER Text.online).

Definition onAuthFailure : M unit := modify (setReady false).

Definition loadAllowedGroups : M unit :=
  w <- getWorld ;;
  match files w !! "allowed-groups.json" with
  | Some (File (JsonArray groups)) =>
      modify (fun w =>
        setAllowedGroups (fold_left (fun s g => JSSet.add g s) groups (allowedGroups w)) w)
  | Some _ => emit (ConsoleError "Error loading allowed groups:")
  | None => ret tt
  end.

(** The array that [allowed-groups.json] holds, when it holds one. *)
Definition persistedGroups (w : World) : option (list string) :=
  match files w !! "allowed-groups.json" with
  | Some (File (JsonArray l)) => Some l
  | _ => None
  end.

(** An outcome with events put in front of its own. *)
Definition after {A} (t0 : list Event) (o : Result A * World * list Event)
  : Result A * World * list Event :=
  match o with (r, w, t) => (r, w, t0 ++ t) end.

(** The rule of access of the handler (line 82). *)
Definition permitted (message : Message) (w : World) : Prop :=
  from message = OWNER_NUMBER \/ chat_id (chat message) ∈ allowedGroups w.


(** [c] occurs in [s]. *)
Fixpoint hasChar (c : ascii) (s : string) : bool :=
  match s with
  | EmptyString => false
  | String d s' => Ascii.eqb d c || hasChar c s'
  end.

(** ** The parsing rule in the words of the specification

    A second reading of the rule, to be compared with [parseCommand] and
    [parseArgs]: tokens are separated by whitespace of any kind and
    length. *)
Module Spec.

Definition isWhitespace (c : ascii) : bool :=
  let n := N_of_ascii c in
  ((n =? 32) || ((9 <=? n) && (n <=? 13)))%N.

(** The text up to the first whitespace character. *)
Fixpoint untilWhitespace (s : string) : string :=
  match s with
  | EmptyString => EmptyString
  | String c s' =>
      if isWhitespace c then EmptyString else String c (untilWhitespace s')
  end.

(** The text from the first whitespace character on. *)
Fixpoint fromWhitespace (s : string) : string :=
  match s with
  | EmptyString => EmptyString
  | String c s' => if isWhitespace c then s else fromWhitespace s'
  end.

(** The whitespace-separated tokens of [s], after the token [cur] read
    so far. *)
Fixpoint tokensFrom (cur : string) (s : string) : list string :=
  match s with
  | EmptyString => if JS.nonEmpty cur then [cur] else []
  | String c s' =>
      if isWhitespace c
      then if JS.nonEmpty cur then cur :: tokensFrom EmptyString s'
           else tokensFrom EmptyString s'
      else tokensFrom (cur +:+ String c EmptyString) s'
  end.

Definition tokens (s : string) : list string := tokensFrom EmptyString s.

(** The lower-case token from just after the marker up to the first
    whitespace character. *)
Definition commandName (body : string) : string :=
  JS.toLowerCase (untilWhitespace (JS.substring1 body)).

(** The remaining whitespace-separated tokens. *)
Definition arguments (body : string) : list string :=
  tokens (fromWhitespace (JS.substring1 body)).

End Spec.

(** ** Sample inputs *)

Module Sample.

Definition response : HttpResponse := mkResponse None "hello world".

(** Every request is answered, the stream finishes, the file is sent,
    every write succeeds. *)
Definition fine : Extern :=
  mkExtern (fun _ => Some response) StreamFinish SendOk (fun _ => true)
    (fun _ => None) 1700000000000 (fun _ => "Family") None None.

(** As [fine], but the write stream fails after five characters. *)
Definition streamFails : Extern :=
  mkExtern (fun _ => Some response) (StreamWriteError 5) SendOk (fun _ => true)
    (fun _ => None) 1700000000000 (fun _ => "Family") None None.

(** As [fine], but no file can be opened for writing. *)
Definition writesFail : Extern :=
  mkExtern (fun _ => Some response) StreamFinish SendOk (fun _ => false)
    (fun _ => None) 1700000000000 (fun _ => "Family") None None.

Definition group : Chat := mkChat "120363000000000000@g.us" true "Family".

Definition picture : Media := mkMedia "image/png" "iVBORw0KGgo=".

Definition noQuote : QuotedMsg := mkQuoted false MediaNone.

(** A message of the owner in the group. *)
Definition ownerSays (text : string) : Message :=
  mkMessage OWNER_NUMBER text group false noQuote.

(** A message of the owner in the group, as a reply to a picture. *)
Definition ownerRepliesToPicture (text : string) : Message :=
  mkMessage OWNER_NUMBER text group true (mkQuoted true (MediaSome picture)).

(** A message of the owner in the group, as a reply to a plain text. *)
Definition ownerRepliesToText (text : string) : Message :=
  mkMessage OWNER_NUMBER text group true (mkQuoted false MediaNone).

(** A message of somebody else in the group. *)
Definition strangerSays (text : string) : Message :=
  mkMessage "94770000000@c.us" text group false noQuote.

Definition broadcast : Message :=
  mkMessage "status@broadcast" "!status" group false noQuote.

Definition start : World := mkWorld [] true ∅.

End Sample.

(** ** Notions used to state what the commands keep *)

(** [m] leaves the allow-list and the readiness flag as they are. *)
Definition keepsState {A} (m : M A) : Prop :=
  forall w,
    allowedGroups (worldOf (m w)) = allowedGroups w /\
    isBotReady (worldOf (m w)) = isBotReady w.

(** [m] returns: whatever is thrown inside it is caught inside it. *)
Definition neverThrows {A} (m : M A) : Prop :=
  forall w, exists a, resultOf (m w) = Ok a.

(** The lines that [listGroups] writes for the groups [ids]. *)
Fixpoint groupLines (x : Extern) (ids : list string) : string :=
  match ids with
  | [] => EmptyString
  | groupId :: rest =>
      "- " +:+ chatNameById x groupId +:+ JS.nl +:+ groupLines x rest
  end.

(** ** The storage of the upload middleware (lines 14-25) *)

(** The [destination] callback: the directory it hands to [cb]. *)
Definition storageDestination : M string :=
  let uploadDir := "uploads" in
  e <- existsSync uploadDir ;;
  (if negb e then mkdirSync uploadDir else ret tt) ;;
  ret uploadDir.

(** The [filename] callback: [Date.now() + '-' + file.originalname]. *)
Definition storageFilename (x : Extern) (originalname : string) : string :=
  JS.decimal (dateNow x) +:+ "-" +:+ originalname.

(** ** The shutdown (lines 363-367) *)

(** The listener of [SIGINT], up to [process.exit(0)]. *)
Definition onSigint (x : Extern) : M unit := saveAllowedGroups x.

(** A plain name of a file or directory: no slash inside, and none of
    the empty name, [.] and [..]. *)
Definition plainSegment (s : string) : Prop :=
  hasChar JS.SLASH s = false /\ s <> EmptyString /\ s <> "." /\ s <> "..".

(** ** Further sample inputs *)

Module Cases.

(** As [Sample.fine], but every request fails. *)
Definition requestFails : Extern :=
  mkExtern (fun _ => None) StreamFinish SendOk (fun _ => true)
    (fun _ => None) 1700000000000 (fun _ => "Family") None None.

(** As [Sample.fine], but the write stream cannot open its file. *)
Definition openFails : Extern :=
  mkExtern (fun _ => Some Sample.response) StreamOpenError SendOk
    (fun _ => true) (fun _ => None) 1700000000000 (fun _ => "Family") None None.

(** As [Sample.fine], but every write breaks off after the file was
    opened, and leaves it empty. *)
Definition writesBreakOff : Extern :=
  mkExtern (fun _ => Some Sample.response) StreamFinish SendOk
    (fun _ => false) (fun _ => Some (Bytes EmptyString)) 1700000000000
    (fun _ => "Family") None None.

(** The owner writing to the bot directly. *)
Definition ownerDirect (text : string) : Message :=
  mkMessage OWNER_NUMBER text (mkChat OWNER_NUMBER false "Owner") false
    Sample.noQuote.

(** The owner replying to a message whose attachment cannot be had. *)
Definition ownerRepliesToLostFile (text : string) : Message :=
  mkMessage OWNER_NUMBER text Sample.group true (mkQuoted true MediaNone).

(** The group of the samples is allowed. *)
Definition groupAllowed : World := mkWorld [chat_id Sample.group] true ∅.

(** No group is allowed, and the file names the group of the samples
    twice. *)
Definition fileNamesGroupTwice : World :=
  mkWorld [] false
    {["allowed-groups.json" :=
        File (JsonArray [chat_id Sample.group; chat_id Sample.group])]}.

Definition namedResponse : HttpResponse :=
  mkResponse (Some "attachment; filename=report.pdf") "hello world".

Definition quotedResponse : HttpResponse :=
  mkResponse
    (Some ("attachment; filename="
           +:+ String JS.DQUOTE ("a.txt" +:+ String JS.DQUOTE EmptyString)))
    "hello world".

End Cases.

(** * Properties *)

(** ** The handler up to the dispatch *)

Lemma onMessage_broadcast x message w :
  from message = "status@broadcast" ->
  onMessage x message w = (Ok tt, w, []).
Proof.
  intros H. unfold onMessage. rewrite H. reflexivity.
Qed.

Lemma onMessage_not_permitted x message w :
  from message <> "status@broadcast" ->
  from message <> OWNER_NUMBER ->
  chat_id (chat message) ∉ allowedGroups w ->
  onMessage x message w = (Ok tt, w, [GetChat; GetContact]).
Proof.
  intros Hb Ho Hg. unfold onMessage.
  apply String.eqb_neq in Hb. rewrite Hb.
  apply String.eqb_neq in Ho.
  unfold bind, emit, getWorld. cbv beta iota.
  rewrite Ho. unfold JSSet.has. rewrite bool_decide_eq_false_2 by exact Hg.
  reflexivity.
Qed.

Lemma onMessage_no_marker x message w :
  from message <> "status@broadcast" ->
  JS.startsWith "!" (body message) = false ->
  onMessage x message w = (Ok tt, w, [GetChat; GetContact]).
Proof.
  intros Hb Hm. unfold onMessage.
  apply String.eqb_neq in Hb. rewrite Hb.
  unfold bind, emit, getWorld. cbv beta iota.
  rewrite Hm.
  destruct (negb _ && negb _); reflexivity.
Qed.

Lemma onMessage_dispatch x message w :
  from message <> "status@broadcast" ->
  permitted message w ->
  JS.startsWith "!" (body message) = true ->
  onMessage x message w =
  after [GetChat; GetContact]
    (dispatch x message (String.eqb (from message) OWNER_NUMBER)
       (parseCommand (body message)) (parseArgs (body message)) w).
Proof.
  intros Hb Hp Hm. unfold onMessage.
  apply String.eqb_neq in Hb. rewrite Hb.
  unfold bind, emit, getWorld. cbv beta iota.
  rewrite Hm.
  assert (negb (String.eqb (from message) OWNER_NUMBER)
          && negb (JSSet.has (chat_id (chat message)) (allowedGroups w)) = false)
    as ->.
  { destruct Hp as [Ho | Hg].
    - apply String.eqb_eq in Ho. rewrite Ho. reflexivity.
    - unfold JSSet.has. rewrite bool_decide_eq_true_2 by exact Hg.
      apply andb_false_r. }
  unfold after.
  destruct (dispatch _ _ _ _ _ _) as [[r w'] t]. reflexivity.
Qed.

Lemma owner_is_not_broadcast : OWNER_NUMBER <> "status@broadcast".
Proof. discriminate. Qed.

(** C10: a message whose sender is [status@broadcast] is dropped at once:
    the handler returns with the state as it was and without a single
    effect, not even the look-ups that precede the check of access. *)
Theorem C10_status_broadcast_ignored x message w :
  from message = "status@broadcast" ->
  onMessage x message w = (Ok tt, w, []).
Proof. apply onMessage_broadcast. Qed.

(** C1: when the sender is not the owner and the chat is not in the
    allow-list, the handler leaves the state as it was and performs nothing
    but its two look-ups, whatever the text of the message; hence whenever
    it changes the state or performs any other effect (a reply, a command),
    the sender is the owner or the chat is in the allow-list. *)
Theorem C1_only_owner_or_allowed_chat x message w :
  (from message <> OWNER_NUMBER /\ chat_id (chat message) ∉ allowedGroups w ->
   resultOf (onMessage x message w) = Ok tt /\
   worldOf (onMessage x message w) = w /\
   Forall (fun e => e = GetChat \/ e = GetContact)
     (eventsOf (onMessage x message w))) /\
  (worldOf (onMessage x message w) <> w \/
   Exists (fun e => e <> GetChat /\ e <> GetContact)
     (eventsOf (onMessage x message w)) ->
   permitted message w).
Proof.
  assert (from message <> OWNER_NUMBER /\
          chat_id (chat message) ∉ allowedGroups w ->
          resultOf (onMessage x message w) = Ok tt /\
          worldOf (onMessage x message w) = w /\
          Forall (fun e => e = GetChat \/ e = GetContact)
            (eventsOf (onMessage x message w))) as Hdeny.
  { intros [Ho Hg].
    destruct (decide (from message = "status@broadcast")) as [Hb | Hb].
    - rewrite onMessage_broadcast by exact Hb.
      split; [reflexivity |]. split; [reflexivity |]. constructor.
    - rewrite onMessage_not_permitted by assumption.
      split; [reflexivity |]. split; [reflexivity |].
      constructor; [auto |]. constructor; [auto |]. constructor. }
  split; [exact Hdeny |].
  intros Hacts. unfold permitted.
  destruct (decide (from message = OWNER_NUMBER)) as [Ho | Ho]; [left; exact Ho |].
  destruct (decide (chat_id (chat message) ∈ allowedGroups w)) as [Hg | Hg];
    [right; exact Hg |].
  exfalso. destruct (Hdeny (conj Ho Hg)) as (_ & Hw & Hev).
  destruct Hacts as [Hne | Hex]; [exact (Hne Hw) |].
  apply Exists_exists in Hex. destruct Hex as (e & Hin & Hn1 & Hn2).
  rewrite Forall_forall in Hev. destruct (Hev e Hin); contradiction.
Qed.

(** C5: when the body does not start with the marker [!], the handler
    leaves the state as it was and performs no reply and no command: its
    effects are none, or its two look-ups. *)
Theorem C5_no_marker_no_action x message w :
  JS.startsWith "!" (body message) = false ->
  resultOf (onMessage x message w) = Ok tt /\
  worldOf (onMessage x message w) = w /\
  (eventsOf (onMessage x message w) = [] \/
   eventsOf (onMessage x message w) = [GetChat; GetContact]).
Proof.
  intros Hm.
  destruct (decide (from message = "status@broadcast")) as [Hb | Hb].
  - rewrite onMessage_broadcast by exact Hb. auto.
  - rewrite onMessage_no_marker by assumption. auto.
Qed.

(** ** Strings *)

Lemma append_assoc (a b c : string) : (a +:+ b) +:+ c = a +:+ (b +:+ c).
Proof.
  induction a as [| ch a IH]; [reflexivity |].
  change (String ch ((a +:+ b) +:+ c) = String ch (a +:+ (b +:+ c))).
  rewrite IH. reflexivity.
Qed.


(** ** Dispatch of the single commands *)

Lemma dispatch_download x message isOwner args :
  dispatch x message isOwner "download" args = downloadFile x message args.
Proof. reflexivity. Qed.

Lemma dispatch_upload x message isOwner args :
  dispatch x message isOwner "upload" args = uploadFile x message.
Proof. reflexivity. Qed.

Lemma dispatch_status x message isOwner args :
  dispatch x message isOwner "status" args = showStatus isOwner.
Proof. reflexivity. Qed.

Lemma dispatch_addgroup x message args :
  dispatch x message true "addgroup" args = addGroup x message.
Proof. reflexivity. Qed.

Lemma dispatch_removegroup x message args :
  dispatch x message true "removegroup" args = removeGroup x message.
Proof. reflexivity. Qed.

(** The claim C3 as it is written fails on a body that ends in a space
    after the command word: no URL follows, and the whitespace-separated
    tokens after the command are none, but [split(' ')] makes the empty
    text the first argument, the guard [args.length === 0] of line 176
    does not hold, and the request is made, for the empty URL. *)
Lemma C3_counterexample :
  let message := Sample.ownerSays "!download " in
  let o := onMessage Cases.requestFails message Sample.start in
  JS.startsWith "!" (body message) = true /\
  parseCommand (body message) = "download" /\
  Spec.arguments (body message) = [] /\
  eventsOf o =
    [GetChat; GetContact; Reply Text.downloading; HttpGet EmptyString;
     ConsoleError "Error downloading file:"; Reply Text.downloadFailed] /\
  existsb isNetwork (eventsOf o) = true /\
  ~ In (Reply Text.provideUrl) (eventsOf o).
Proof.
  cbv zeta. repeat (split; [reflexivity |]).
  intros H. vm_compute in H.
  repeat (destruct H as [H | H]; [discriminate H |]). exact H.
Qed.

(** C3 (amended): a permitted [download] command whose array of arguments
    is empty, which is the case when the body has no space in it, is
    answered with the request to provide a URL, and with nothing else: no
    HTTP request and no operation on the file system, the state as it
    was. *)
Theorem C3_download_without_url x message w :
  from message <> "status@broadcast" ->
  permitted message w ->
  JS.startsWith "!" (body message) = true ->
  parseCommand (body message) = "download" ->
  parseArgs (body message) = [] ->
  onMessage x message w =
    (Ok tt, w, [GetChat; GetContact; Reply Text.provideUrl]) /\
  existsb isNetwork (eventsOf (onMessage x message w)) = false /\
  existsb isFsWrite (eventsOf (onMessage x message w)) = false.
Proof.
  intros Hb Hp Hm Hc Ha.
  rewrite onMessage_dispatch by assumption.
  rewrite Hc, Ha, dispatch_download.
  repeat split.
Qed.

(** C6: a permitted [upload] command that is not a reply to a message is
    answered with the request to reply to a file; one whose quoted message
    has no attachment is answered with the text saying so.  In both cases
    nothing is written: the state is as it was and the reply is the only
    effect besides the look-ups. *)
Theorem C6_upload_without_file x message w :
  from message <> "status@broadcast" ->
  permitted message w ->
  JS.startsWith "!" (body message) = true ->
  parseCommand (body message) = "upload" ->
  (hasQuotedMsg message = false ->
   onMessage x message w =
     (Ok tt, w, [GetChat; GetContact; Reply Text.replyToFile])) /\
  (hasQuotedMsg message = true ->
   hasMedia (quoted message) = false ->
   onMessage x message w =
     (Ok tt, w, [GetChat; GetContact; GetQuotedMessage; Reply Text.noFile])).
Proof.
  intros Hb Hp Hm Hc.
  rewrite onMessage_dispatch by assumption.
  rewrite Hc, dispatch_upload. unfold uploadFile.
  split.
  - intros Hq. rewrite Hq. reflexivity.
  - intros Hq Hmedia. rewrite Hq. cbv beta iota.
    unfold bind, emit. cbv beta iota. rewrite Hmedia. reflexivity.
Qed.


(** ** [split] and [join] *)

Lemma split_cons sep s : exists p ps, JS.split sep s = p :: ps.
Proof.
  destruct s as [| c s]; simpl; [eauto |].
  destruct (Ascii.eqb c sep); [eauto |].
  destruct (JS.split sep s); eauto.
Qed.

Lemma split_no_sep sep s : hasChar sep s = false -> JS.split sep s = [s].
Proof.
  induction s as [| c s IH]; simpl; [reflexivity |].
  intros H. apply orb_false_iff in H as [Hc Hs].
  rewrite Hc, (IH Hs). reflexivity.
Qed.

Lemma split_app sep a b :
  hasChar sep a = false ->
  JS.split sep (a +:+ String sep b) = a :: JS.split sep b.
Proof.
  induction a as [| c a IH]; intros H.
  - change (JS.split sep (String sep b) = EmptyString :: JS.split sep b).
    simpl. rewrite Ascii.eqb_refl. reflexivity.
  - simpl in H. apply orb_false_iff in H as [Hc Ha].
    change (JS.split sep (String c (a +:+ String sep b))
            = String c a :: JS.split sep b).
    simpl. rewrite Hc, (IH Ha). reflexivity.
Qed.

Lemma join_split sep s : JS.join sep (JS.split sep s) = s.
Proof.
  induction s as [| c s IH]; [reflexivity |].
  simpl JS.split.
  destruct (split_cons sep s) as (p & ps & Hs). rewrite Hs in IH |- *.
  destruct (Ascii.eqb c sep) eqn:Hc.
  - apply Ascii.eqb_eq in Hc. subst c.
    change (String sep (JS.join sep (p :: ps)) = String sep s).
    rewrite IH. reflexivity.
  - destruct ps as [| q ps].
    + simpl in IH |- *. rewrite IH. reflexivity.
    + change (String c (JS.join sep (p :: q :: ps)) = String c s).
      rewrite IH. reflexivity.
Qed.

Lemma split_pieces sep s :
  Forall (fun p => hasChar sep p = false) (JS.split sep s).
Proof.
  induction s as [| c s IH]; simpl.
  - constructor; [reflexivity | constructor].
  - destruct (Ascii.eqb c sep) eqn:Hc.
    + constructor; [reflexivity | exact IH].
    + destruct (JS.split sep s) as [| p ps].
      * constructor; [simpl; rewrite Hc; reflexivity | constructor].
      * inversion IH as [| ? ? Hp Hps]; subst.
        constructor; [simpl; rewrite Hc, Hp; reflexivity | exact Hps].
Qed.

(** The pieces are determined by the text: [split] is the only way to cut
    a text at every separator. *)
Lemma split_join sep p ps :
  Forall (fun q => hasChar sep q = false) (p :: ps) ->
  JS.split sep (JS.join sep (p :: ps)) = p :: ps.
Proof.
  revert p. induction ps as [| q ps IH]; intros p H.
  - inversion H; subst. apply split_no_sep. assumption.
  - inversion H as [| ? ? Hp Hrest]; subst.
    change (JS.split sep (p +:+ String sep (JS.join sep (q :: ps)))
            = p :: q :: ps).
    rewrite split_app by exact Hp. rewrite IH by exact Hrest. reflexivity.
Qed.

(** ** Parsing *)

Lemma startsWith_marker body :
  JS.startsWith "!" body = true -> exists rest, body = String "!"%char rest.
Proof.
  unfold JS.startsWith. destruct body as [| c rest]; intros H.
  - discriminate H.
  - change (JS.dropPrefix "!" (String c rest))
      with (if Ascii.eqb "!"%char c then Some rest else None) in H.
    destruct (Ascii.eqb "!"%char c) eqn:Hc.
    + apply Ascii.eqb_eq in Hc. subst c. eauto.
    + discriminate H.
Qed.

(** On the text used by the specification as its example the two readings
    of the parsing rule agree. *)
Example parse_agrees_on_single_spaces :
  parseCommand "!Download http://h/a.txt" = Spec.commandName "!Download http://h/a.txt" /\
  parseArgs "!Download http://h/a.txt" = Spec.arguments "!Download http://h/a.txt".
Proof. split; reflexivity. Qed.

(** The claim C7 as it is written fails on two spaces in a row: the code
    cuts the body at every single space, so that the first argument is the
    empty text, where the whitespace-separated tokens are the URL alone. *)
Lemma C7_counterexample :
  JS.startsWith "!" "!download  http://h/a.txt" = true /\
  parseArgs "!download  http://h/a.txt" = [EmptyString; "http://h/a.txt"] /\
  Spec.arguments "!download  http://h/a.txt" = ["http://h/a.txt"] /\
  parseArgs "!download  http://h/a.txt" <> Spec.arguments "!download  http://h/a.txt".
Proof.
  split; [reflexivity |]. split; [reflexivity |]. split; [reflexivity |].
  intros H. vm_compute in H. discriminate H.
Qed.

(** C7 (amended): for a body that starts with the marker, the command name
    is the lower-case form of the text [name] between the marker and the
    first space character, and the arguments are the pieces of the rest of
    the body between its space characters, in order: the body is the
    marker followed by [name] and the arguments joined by single spaces,
    and none of them has a space inside. *)
Theorem C7_command_and_arguments body :
  JS.startsWith "!" body = true ->
  exists name,
    body = "!" +:+ JS.join JS.SPACE (name :: parseArgs body) /\
    Forall (fun p => hasChar JS.SPACE p = false) (name :: parseArgs body) /\
    parseCommand body = JS.toLowerCase name.
Proof.
  intros H. destruct (startsWith_marker body H) as (rest & ->).
  pose proof (join_split JS.SPACE rest) as Hjoin.
  pose proof (split_pieces JS.SPACE rest) as Hpieces.
  destruct (split_cons JS.SPACE rest) as (p & ps & Hs).
  rewrite Hs in Hjoin, Hpieces.
  assert (JS.split JS.SPACE (String "!"%char rest) = String "!"%char p :: ps)
    as Hsplit by (simpl; rewrite Hs; reflexivity).
  exists p. unfold parseArgs, parseCommand. rewrite Hsplit. simpl hd. simpl JS.slice1.
  split; [| split].
  - change (String "!"%char rest = String "!"%char (JS.join JS.SPACE (p :: ps))).
    rewrite Hjoin. reflexivity.
  - exact Hpieces.
  - reflexivity.
Qed.

(** ** Upload *)

Lemma extensionOf_subtype ty sub :
  hasChar JS.SLASH ty = false ->
  hasChar JS.SLASH sub = false ->
  extensionOf (ty +:+ "/" +:+ sub) = sub.
Proof.
  intros Hty Hsub. unfold extensionOf.
  change (ty +:+ "/" +:+ sub) with (ty +:+ String JS.SLASH sub).
  rewrite split_app by exact Hty. rewrite split_no_sep by exact Hsub.
  reflexivity.
Qed.

(** C9: a successful upload writes the attachment under the name
    [file-<Date.now()>.<extension>], where the extension is the second of
    the pieces of the MIME type between its slashes (the subtype of
    [type/subtype]), and replies with the link
    [<base>/uploads/<that name>]; [base] is [BASE_URL] when it is set and
    not empty, and otherwise [http://localhost:<port>], with [PORT] for
    the port when it is set and not empty and [3000] otherwise. *)
Theorem C9_upload_name_and_link x message w media :
  from message <> "status@broadcast" ->
  permitted message w ->
  JS.startsWith "!" (body message) = true ->
  parseCommand (body message) = "upload" ->
  hasQuotedMsg message = true ->
  hasMedia (quoted message) = true ->
  downloadMedia (quoted message) = MediaSome media ->
  writeSucceeds x
    (Path.join "uploads" (uploadFilename (dateNow x) (mimetype media))) = true ->
  exists ext base filename,
    filename = "file-" +:+ JS.decimal (dateNow x) +:+ "." +:+ ext /\
    ext = nth 1 (JS.split JS.SLASH (mimetype media)) "undefined" /\
    (forall ty sub,
        mimetype media = ty +:+ "/" +:+ sub ->
        hasChar JS.SLASH ty = false -> hasChar JS.SLASH sub = false ->
        ext = sub) /\
    (forall b, envBASE_URL x = Some b -> b <> EmptyString -> base = b) /\
    (envBASE_URL x = None \/ envBASE_URL x = Some EmptyString ->
     exists p,
       base = "http://localhost:" +:+ p /\
       (forall q, envPORT x = Some q -> q <> EmptyString -> p = q) /\
       (envPORT x = None \/ envPORT x = Some EmptyString -> p = "3000")) /\
    onMessage x message w =
      (Ok tt,
       setFiles (<[Path.join "uploads" filename :=
                     File (FromBase64 (data media))]> (files w)) w,
       [GetChat; GetContact; GetQuotedMessage; Reply Text.processing;
        DownloadMedia;
        WriteFile (Path.join "uploads" filename) (FromBase64 (data media));
        Reply ("File uploaded successfully!" +:+ JS.nl
               +:+ "Direct download link: "
               +:+ base +:+ "/uploads/" +:+ filename)]).
Proof.
  intros Hb Hp Hm Hc Hq Hmedia Hdl Hwr.
  exists (extensionOf (mimetype media)), (baseUrl x),
    (uploadFilename (dateNow x) (mimetype media)).
  split; [reflexivity |]. split; [reflexivity |]. split; [| split; [| split]].
  - intros ty sub -> Hty Hsub. apply extensionOf_subtype; assumption.
  - intros b Hsome Hne. unfold baseUrl. rewrite Hsome. simpl.
    destruct b; [contradiction | reflexivity].
  - intros Hunset. exists (port x). split; [| split].
    + unfold baseUrl. destruct Hunset as [-> | ->]; reflexivity.
    + intros q Hsome Hne. unfold port. rewrite Hsome. simpl.
      destruct q; [contradiction | reflexivity].
    + intros [Hn | Hn]; unfold port; rewrite Hn; reflexivity.
  - rewrite onMessage_dispatch by assumption.
    rewrite Hc, dispatch_upload. unfold uploadFile.
    rewrite Hq. cbv beta iota. unfold bind at 1. unfold emit at 1. cbv beta iota.
    rewrite Hmedia. cbv beta iota.
    unfold tryCatch, bind, reply, emit. cbv beta iota.
    rewrite Hdl. cbv beta iota.
    unfold writeFileSync. rewrite Hwr. reflexivity.
Qed.

(** ** The allow-list and its file *)

Lemma worldOf_after {A} t (o : Result A * World * list Event) :
  worldOf (after t o) = worldOf o.
Proof. destruct o as [[r w] t']. reflexivity. Qed.

Lemma eventsOf_after {A} t (o : Result A * World * list Event) :
  eventsOf (after t o) = t ++ eventsOf o.
Proof. destruct o as [[r w] t']. reflexivity. Qed.

Lemma delete_not_elem g s : g ∉ JSSet.delete g s.
Proof.
  unfold JSSet.delete. rewrite list_elem_of_filter. intros [Hne _].
  apply Hne. reflexivity.
Qed.

Lemma add_elem g s : g ∈ JSSet.add g s.
Proof.
  unfold JSSet.add, JSSet.has. case_bool_decide as Hin; [exact Hin |].
  apply elem_of_app. right. apply list_elem_of_singleton. reflexivity.
Qed.

Lemma saveAllowedGroups_written x w :
  writeSucceeds x "allowed-groups.json" = true ->
  saveAllowedGroups x w =
    (Ok tt,
     setFiles (<["allowed-groups.json" := File (JsonArray (allowedGroups w))]>
                 (files w)) w,
     [WriteFile "allowed-groups.json" (JsonArray (allowedGroups w))]).
Proof.
  intros H. unfold saveAllowedGroups, tryCatch, bind, getWorld, writeFileSync.
  cbv beta iota. rewrite H. reflexivity.
Qed.

Lemma saveAllowedGroups_failed x w :
  writeSucceeds x "allowed-groups.json" = false ->
  saveAllowedGroups x w =
    (Ok tt, afterFailedWrite x "allowed-groups.json" w,
     failedWriteEvents x "allowed-groups.json"
     ++ [ConsoleError "Error saving allowed groups:"]).
Proof.
  intros H. unfold saveAllowedGroups, tryCatch, bind, getWorld, writeFileSync,
    emit.
  cbv beta iota. rewrite H. cbv beta iota. rewrite app_nil_l. reflexivity.
Qed.

Lemma afterFailedWrite_allowedGroups x path w :
  allowedGroups (afterFailedWrite x path w) = allowedGroups w.
Proof. unfold afterFailedWrite. destruct (failedWriteLeaves x path); reflexivity. Qed.

Lemma addGroup_in_group x message w :
  isGroup (chat message) = true ->
  addGroup x message w =
    after [GetChat; Reply Text.groupAdded]
      (saveAllowedGroups x
         (setAllowedGroups
            (JSSet.add (chat_id (chat message)) (allowedGroups w)) w)).
Proof.
  intros H. unfold addGroup. rewrite H.
  unfold bind, emit, modify, reply, emit, after. cbv beta iota.
  destruct (saveAllowedGroups _ _) as [[r w'] t]. reflexivity.
Qed.

Lemma removeGroup_in_group x message w :
  isGroup (chat message) = true ->
  removeGroup x message w =
    after [GetChat; Reply Text.groupRemoved]
      (saveAllowedGroups x
         (setAllowedGroups
            (JSSet.delete (chat_id (chat message)) (allowedGroups w)) w)).
Proof.
  intros H. unfold removeGroup. rewrite H.
  unfold bind, emit, modify, reply, emit, after. cbv beta iota.
  destruct (saveAllowedGroups _ _) as [[r w'] t]. reflexivity.
Qed.

Lemma onMessage_owner x message w :
  from message = OWNER_NUMBER ->
  JS.startsWith "!" (body message) = true ->
  onMessage x message w =
  after [GetChat; GetContact]
    (dispatch x message true
       (parseCommand (body message)) (parseArgs (body message)) w).
Proof.
  intros Ho Hm.
  rewrite onMessage_dispatch;
    [| rewrite Ho; apply owner_is_not_broadcast | left; exact Ho | exact Hm].
  apply String.eqb_eq in Ho. rewrite Ho. reflexivity.
Qed.

(** The state after the owner's [removegroup] in a group. *)
Lemma removegroup_world x message w :
  from message = OWNER_NUMBER ->
  isGroup (chat message) = true ->
  JS.startsWith "!" (body message) = true ->
  parseCommand (body message) = "removegroup" ->
  worldOf (onMessage x message w) =
    worldOf (saveAllowedGroups x
               (setAllowedGroups
                  (JSSet.delete (chat_id (chat message)) (allowedGroups w)) w)).
Proof.
  intros Ho Hg Hm Hc.
  rewrite onMessage_owner by assumption.
  rewrite Hc, dispatch_removegroup, removeGroup_in_group by exact Hg.
  rewrite !worldOf_after. reflexivity.
Qed.

(** The state after the owner's [addgroup] in a group. *)
Lemma addgroup_world x message w :
  from message = OWNER_NUMBER ->
  isGroup (chat message) = true ->
  JS.startsWith "!" (body message) = true ->
  parseCommand (body message) = "addgroup" ->
  worldOf (onMessage x message w) =
    worldOf (saveAllowedGroups x
               (setAllowedGroups
                  (JSSet.add (chat_id (chat message)) (allowedGroups w)) w)).
Proof.
  intros Ho Hg Hm Hc.
  rewrite onMessage_owner by assumption.
  rewrite Hc, dispatch_addgroup, addGroup_in_group by exact Hg.
  rewrite !worldOf_after. reflexivity.
Qed.

(** The claim C4 as it is written fails when the write made by
    [removegroup] cannot open the file: the exception is caught and logged
    ([saveAllowedGroups], lines 310-315), the group has left the set in
    memory, and the file still holds the array written by [addgroup]. *)
Lemma C4_counterexample :
  let g := chat_id Sample.group in
  let w1 := worldOf (onMessage Sample.fine (Sample.ownerSays "!addgroup")
                       Sample.start) in
  let w2 := worldOf (onMessage Sample.writesFail
                       (Sample.ownerSays "!removegroup") w1) in
  allowedGroups w2 = [] /\
  persistedGroups w2 = Some [g] /\
  ~ (forall l, persistedGroups w2 = Some l -> g ∉ l).
Proof.
  assert (persistedGroups
            (worldOf (onMessage Sample.writesFail
                        (Sample.ownerSays "!removegroup")
                        (worldOf (onMessage Sample.fine
                                    (Sample.ownerSays "!addgroup")
                                    Sample.start))))
          = Some [chat_id Sample.group]) as Hfile by (vm_compute; reflexivity).
  cbv zeta. split; [vm_compute; reflexivity |]. split; [exact Hfile |].
  intros Hclaim. apply (Hclaim _ Hfile). apply list_elem_of_here.
Qed.

(** C4 (amended): after the owner's [addgroup] in the group chat [g], [g]
    is in the set in memory; after the owner's [removegroup] that follows
    it, [g] is not in the set in memory; when the write of
    [allowed-groups.json] made by [removegroup] succeeds, the file holds
    the array of that set, hence without [g]; when that write fails, the
    failure is logged and nothing else: the command returns, its only
    reply is the confirmation of the removal, and nothing is said of what
    the file holds. *)
Theorem C4_add_then_remove x1 x2 m1 m2 w g :
  from m1 = OWNER_NUMBER -> from m2 = OWNER_NUMBER ->
  chat_id (chat m1) = g -> chat_id (chat m2) = g ->
  isGroup (chat m1) = true -> isGroup (chat m2) = true ->
  JS.startsWith "!" (body m1) = true -> parseCommand (body m1) = "addgroup" ->
  JS.startsWith "!" (body m2) = true -> parseCommand (body m2) = "removegroup" ->
  let w1 := worldOf (onMessage x1 m1 w) in
  let w2 := worldOf (onMessage x2 m2 w1) in
  g ∈ allowedGroups w1 /\
  (g ∉ allowedGroups w2) /\
  (writeSucceeds x2 "allowed-groups.json" = true ->
   persistedGroups w2 = Some (allowedGroups w2) /\
   forall l, persistedGroups w2 = Some l -> g ∉ l) /\
  (writeSucceeds x2 "allowed-groups.json" = false ->
   resultOf (onMessage x2 m2 w1) = Ok tt /\
   eventsOf (onMessage x2 m2 w1) =
     [GetChat; GetContact; GetChat; Reply Text.groupRemoved]
     ++ failedWriteEvents x2 "allowed-groups.json"
     ++ [ConsoleError "Error saving allowed groups:"]).
Proof.
  intros Ho1 Ho2 Hg1 Hg2 Hgr1 Hgr2 Hm1 Hc1 Hm2 Hc2 w1 w2.
  split.
  { unfold w1. rewrite addgroup_world by assumption. rewrite Hg1.
    destruct (writeSucceeds x1 "allowed-groups.json") eqn:Hwr.
    - rewrite saveAllowedGroups_written by exact Hwr. apply add_elem.
    - rewrite saveAllowedGroups_failed by exact Hwr. unfold worldOf.
      cbn [fst snd]. rewrite afterFailedWrite_allowedGroups. apply add_elem. }
  assert (w2 = worldOf (saveAllowedGroups x2
                          (setAllowedGroups (JSSet.delete g (allowedGroups w1)) w1)))
    as Hw2.
  { unfold w2. rewrite removegroup_world by assumption. rewrite Hg2. reflexivity. }
  destruct (writeSucceeds x2 "allowed-groups.json") eqn:Hwr.
  - rewrite saveAllowedGroups_written in Hw2 by exact Hwr.
    rewrite Hw2. unfold worldOf, persistedGroups. cbn [fst snd files setFiles allowedGroups setAllowedGroups].
    rewrite lookup_insert_eq.
    split; [apply delete_not_elem |]. split; [| discriminate].
    intros _. split; [reflexivity |].
    intros l [= <-]. apply delete_not_elem.
  - rewrite saveAllowedGroups_failed in Hw2 by exact Hwr.
    rewrite Hw2. unfold worldOf at 1. cbn [fst snd].
    rewrite afterFailedWrite_allowedGroups. cbn [allowedGroups setAllowedGroups].
    split; [apply delete_not_elem |]. split; [discriminate |].
    intros _. rewrite onMessage_owner by assumption.
    rewrite Hc2, dispatch_removegroup, removeGroup_in_group by exact Hgr2.
    rewrite saveAllowedGroups_failed by exact Hwr. split; reflexivity.
Qed.

(** ** Download and the temporary file *)

Lemma bind_ok {A B} (m : M A) (k : A -> M B) w a w1 t1 :
  m w = (Ok a, w1, t1) -> bind m k w = after t1 (k a w1).
Proof.
  intros H. unfold bind, after. rewrite H.
  destruct (k a w1) as [[r w2] t2]. reflexivity.
Qed.

(** The listener of ['finish'] removes the file, whether the attachment
    could be sent or not. *)
Lemma onWriterFinish_removes x message path name w c :
  files w !! path = Some (File c) ->
  resultOf (onWriterFinish x message path name w) = Ok tt /\
  files (worldOf (onWriterFinish x message path name w)) !! path = None /\
  In (Unlink path) (eventsOf (onWriterFinish x message path name w)).
Proof.
  intros H.
  unfold onWriterFinish, tryCatch, bind, sendFile, unlinkSync, reply, emit,
    existsSync, ret.
  destruct (sendOutcome x); cbv beta iota; rewrite ?H; cbv beta iota;
    rewrite ?bool_decide_eq_true_2 by eauto;
    cbv beta iota; rewrite ?H;
    unfold resultOf, worldOf, eventsOf; cbn [fst snd files setFiles app];
    rewrite lookup_delete_eq; (split; [reflexivity |]; split; [reflexivity |]);
    simpl; tauto.
Qed.

(** The listener of ['error'] replies and leaves the disk as it is. *)
Lemma onWriterError_keeps w :
  onWriterError w =
    (Ok tt, w, [ConsoleError "Error downloading file:"; Reply Text.downloadFailed]).
Proof. reflexivity. Qed.

(** What the disk holds at the temporary path when the writer stops. *)
Lemma downloadStart_answered x url response w :
  axiosGet x url = Some response ->
  let name := downloadFilename url response in
  let path := Path.join "temp" name in
  path <> "temp" ->
  files w !! path <> Some Dir ->
  exists ev w' t,
    downloadStart x url w = (Ok (Some (path, name, ev)), w', t) /\
    match streamOutcome x with
    | StreamFinish =>
        ev = OnFinish /\
        files w' !! path = Some (File (Bytes (responseBody response)))
    | StreamWriteError n =>
        ev = OnError /\
        files w' !! path =
          Some (File (Bytes (String.substring 0 n (responseBody response))))
    | StreamOpenError => ev = OnError /\ files w' !! path = files w !! path
    end.
Proof.
  intros Hax name path Hne Hdir.
  unfold downloadStart, tryCatch, bind, reply, emit, axios, existsSync, ret.
  cbv beta iota. rewrite Hax. cbv beta iota zeta.
  fold name. fold path.
  assert (forall w0 : World,
             files w0 !! path <> Some Dir ->
             exists ev w' t,
               pipeToFile x path (responseBody response) w0 = (Ok ev, w', t) /\
               match streamOutcome x with
               | StreamFinish =>
                   ev = OnFinish /\
                   files w' !! path = Some (File (Bytes (responseBody response)))
               | StreamWriteError n =>
                   ev = OnError /\
                   files w' !! path =
                     Some (File (Bytes (String.substring 0 n (responseBody response))))
               | StreamOpenError =>
                   ev = OnError /\ files w' !! path = files w0 !! path
               end) as Hpipe.
  { intros w0 Hd. unfold pipeToFile.
    destruct (files w0 !! path) as [[| c] |] eqn:Hl; [contradiction | |];
      destruct (streamOutcome x); eexists _, _, _;
      (split; [reflexivity |]); cbn [files setFiles];
      rewrite ?lookup_insert_eq; auto. }
  destruct (bool_decide (is_Some (files w !! "temp")));
    cbn [negb]; cbv beta iota.
  - destruct (Hpipe w Hdir) as (ev & w' & t & Hrun & Hspec).
    rewrite Hrun. eexists _, _, _. split; [reflexivity | exact Hspec].
  - unfold mkdirSync. cbv beta iota.
    assert (files (setFiles (<["temp" := Dir]> (files w)) w) !! path
            = files w !! path) as Hsame.
    { cbn [files setFiles]. apply lookup_insert_ne. congruence. }
    destruct (Hpipe (setFiles (<["temp" := Dir]> (files w)) w))
      as (ev & w' & t & Hrun & Hspec); [rewrite Hsame; exact Hdir |].
    rewrite Hrun. eexists _, _, _. split; [reflexivity |].
    destruct (streamOutcome x); try exact Hspec.
    destruct Hspec as [-> ->]. split; [reflexivity | exact Hsame].
Qed.

(** When the writer finishes, no temporary file is left behind. *)
Lemma downloadFile_finish_removes x message url rest response w :
  axiosGet x url = Some response ->
  streamOutcome x = StreamFinish ->
  let path := Path.join "temp" (downloadFilename url response) in
  path <> "temp" ->
  files w !! path <> Some Dir ->
  files (worldOf (downloadFile x message (url :: rest) w)) !! path = None.
Proof.
  intros Hax Hst path Hne Hdir.
  destruct (downloadStart_answered x url response w Hax Hne Hdir)
    as (ev & w' & t & Hrun & Hspec).
  rewrite Hst in Hspec. destruct Hspec as [-> Hfile].
  unfold downloadFile. rewrite (bind_ok _ _ _ _ _ _ Hrun), worldOf_after.
  eapply onWriterFinish_removes. exact Hfile.
Qed.

(** When the writer fails after the file was created, the file stays. *)
Lemma downloadFile_write_error_keeps x message url rest response n w :
  axiosGet x url = Some response ->
  streamOutcome x = StreamWriteError n ->
  let path := Path.join "temp" (downloadFilename url response) in
  path <> "temp" ->
  files w !! path <> Some Dir ->
  files (worldOf (downloadFile x message (url :: rest) w)) !! path =
    Some (File (Bytes (String.substring 0 n (responseBody response)))).
Proof.
  intros Hax Hst path Hne Hdir.
  destruct (downloadStart_answered x url response w Hax Hne Hdir)
    as (ev & w' & t & Hrun & Hspec).
  rewrite Hst in Hspec. destruct Hspec as [-> Hfile].
  unfold downloadFile. rewrite (bind_ok _ _ _ _ _ _ Hrun), worldOf_after.
  exact Hfile.
Qed.

(** C2, at the input on which it fails: the owner asks for
    [https://example.com/a.txt], the response arrives, the file
    [temp/a.txt] is created and the write stream emits ['error'] after five
    characters.  The listener of ['error'] (lines 232-235) replies and
    removes nothing: no [Unlink] is performed and [temp/a.txt] stays on
    disk with what was written. *)
Theorem C2_write_error_leaves_temp_file :
  let o := onMessage Sample.streamFails
             (Sample.ownerSays "!download https://example.com/a.txt")
             Sample.start in
  eventsOf o =
    [GetChat; GetContact; Reply Text.downloading;
     HttpGet "https://example.com/a.txt"; MkDir "temp";
     CreateWriteStream "temp/a.txt";
     ConsoleError "Error downloading file:"; Reply Text.downloadFailed] /\
  files (worldOf o) !! "temp/a.txt" = Some (File (Bytes "hello")).
Proof. cbv zeta. split; vm_compute; reflexivity. Qed.

(** ** The properties at sample inputs *)

Lemma C10_status_broadcast_ignored_witness :
  onMessage Sample.fine Sample.broadcast Sample.start = (Ok tt, Sample.start, []).
Proof.
  apply (C10_status_broadcast_ignored Sample.fine Sample.broadcast Sample.start).
  reflexivity.
Defined.

Lemma C1_only_owner_or_allowed_chat_witness :
  let o := onMessage Sample.fine
             (Sample.strangerSays "!download https://example.com/a.txt")
             Sample.start in
  resultOf o = Ok tt /\ worldOf o = Sample.start /\
  Forall (fun e => e = GetChat \/ e = GetContact) (eventsOf o).
Proof.
  cbv zeta.
  destruct (C1_only_owner_or_allowed_chat Sample.fine
              (Sample.strangerSays "!download https://example.com/a.txt")
              Sample.start) as [Hdeny _].
  apply Hdeny. split; [discriminate | apply not_elem_of_nil].
Defined.

Lemma C5_no_marker_no_action_witness :
  let o := onMessage Sample.fine (Sample.ownerSays "status") Sample.start in
  resultOf o = Ok tt /\ worldOf o = Sample.start /\
  (eventsOf o = [] \/ eventsOf o = [GetChat; GetContact]).
Proof.
  cbv zeta.
  apply (C5_no_marker_no_action Sample.fine (Sample.ownerSays "status")
           Sample.start).
  reflexivity.
Defined.

Lemma C3_download_without_url_witness :
  onMessage Sample.fine (Sample.ownerSays "!Download") Sample.start =
    (Ok tt, Sample.start, [GetChat; GetContact; Reply Text.provideUrl]).
Proof.
  apply (C3_download_without_url Sample.fine (Sample.ownerSays "!Download")
           Sample.start).
  - discriminate.
  - left. reflexivity.
  - reflexivity.
  - reflexivity.
  - reflexivity.
Defined.

Lemma C6_upload_without_file_witness :
  onMessage Sample.fine (Sample.ownerSays "!upload") Sample.start =
    (Ok tt, Sample.start, [GetChat; GetContact; Reply Text.replyToFile]) /\
  onMessage Sample.fine (Sample.ownerRepliesToText "!upload") Sample.start =
    (Ok tt, Sample.start,
     [GetChat; GetContact; GetQuotedMessage; Reply Text.noFile]).
Proof.
  split.
  - apply (C6_upload_without_file Sample.fine (Sample.ownerSays "!upload")
             Sample.start);
      [discriminate | left; reflexivity | reflexivity | reflexivity | reflexivity].
  - apply (C6_upload_without_file Sample.fine
             (Sample.ownerRepliesToText "!upload") Sample.start);
      [discriminate | left; reflexivity | reflexivity | reflexivity
      | reflexivity | reflexivity].
Defined.


Lemma C7_command_and_arguments_witness :
  exists name,
    "!download  http://h/a.txt" =
      "!" +:+ JS.join JS.SPACE (name :: parseArgs "!download  http://h/a.txt") /\
    Forall (fun p => hasChar JS.SPACE p = false)
      (name :: parseArgs "!download  http://h/a.txt") /\
    parseCommand "!download  http://h/a.txt" = JS.toLowerCase name.
Proof.
  apply (C7_command_and_arguments "!download  http://h/a.txt"). reflexivity.
Defined.

Lemma C9_upload_name_and_link_witness :
  In (Reply ("File uploaded successfully!" +:+ JS.nl
             +:+ "Direct download link: "
             +:+ "http://localhost:3000/uploads/file-1700000000000.png"))
    (eventsOf (onMessage Sample.fine (Sample.ownerRepliesToPicture "!upload")
                 Sample.start)).
Proof.
  destruct (C9_upload_name_and_link Sample.fine
              (Sample.ownerRepliesToPicture "!upload") Sample.start
              Sample.picture)
    as (ext & base & filename & Hname & _ & Hext & _ & Hdefault & Hrun);
    [discriminate | left; reflexivity | reflexivity | reflexivity | reflexivity
    | reflexivity | reflexivity | reflexivity |].
  rewrite (Hext "image" "png" eq_refl eq_refl eq_refl) in Hname.
  destruct (Hdefault (or_introl eq_refl)) as (p & Hbase & _ & Hport).
  rewrite (Hport (or_introl eq_refl)) in Hbase.
  rewrite Hrun, Hbase, Hname. unfold eventsOf. simpl. tauto.
Defined.

Lemma C4_add_then_remove_witness :
  let w1 := worldOf (onMessage Sample.fine (Sample.ownerSays "!addgroup")
                       Sample.start) in
  let w2 := worldOf (onMessage Sample.fine (Sample.ownerSays "!removegroup")
                       w1) in
  (chat_id Sample.group ∉ allowedGroups w2) /\
  persistedGroups w2 = Some (allowedGroups w2).
Proof.
  cbv zeta.
  destruct (C4_add_then_remove Sample.fine Sample.fine
              (Sample.ownerSays "!addgroup") (Sample.ownerSays "!removegroup")
              Sample.start (chat_id Sample.group)
              eq_refl eq_refl eq_refl eq_refl eq_refl eq_refl
              eq_refl eq_refl eq_refl eq_refl) as (_ & Hmem & Hfile & _).
  split; [exact Hmem | apply Hfile; reflexivity].
Defined.

(** ** Further examples *)

Example path_join_examples :
  Path.join "temp" "a.txt" = "temp/a.txt" /\
  Path.join "temp" EmptyString = "temp" /\
  Path.join "temp" ".." = "." /\
  Path.join "temp" "../../x" = "../x" /\
  Path.join "temp" "a/" = "temp/a/".
Proof. repeat split; reflexivity. Qed.

(** The group [(.+)] takes the closing quote with it. *)
Example matchFilename_examples :
  matchFilename "attachment; filename=report.pdf" = Some "report.pdf" /\
  matchFilename (String.append "attachment; filename="
                   (String JS.DQUOTE (String.append "a.txt" (String JS.DQUOTE EmptyString))))
    = Some (String.append "a.txt" (String JS.DQUOTE EmptyString)) /\
  matchFilename "inline" = None.
Proof. repeat split; reflexivity. Qed.

(** When the writer finishes the file is sent and removed. *)
Example download_finish :
  let o := onMessage Sample.fine
             (Sample.ownerSays "!download https://example.com/a.txt")
             Sample.start in
  eventsOf o =
    [GetChat; GetContact; Reply Text.downloading;
     HttpGet "https://example.com/a.txt"; MkDir "temp";
     CreateWriteStream "temp/a.txt";
     SendMedia OWNER_NUMBER "temp/a.txt" "Here's your downloaded file: a.txt";
     Unlink "temp/a.txt"] /\
  files (worldOf o) !! "temp/a.txt" = None.
Proof. cbv zeta. split; vm_compute; reflexivity. Qed.

(** A space after [!download] makes the empty text the first argument:
    the request is made, with the empty URL. *)
Example download_trailing_space :
  parseArgs "!download " = [EmptyString] /\
  In (HttpGet EmptyString)
    (eventsOf (onMessage Sample.fine (Sample.ownerSays "!download ")
                 Sample.start)).
Proof. split; [reflexivity | vm_compute; tauto]. Qed.

(** A tab does not end the command name. *)
Example tab_is_not_a_separator :
  parseCommand (String.append "!help" (String "009"%char "now"))
    = String.append "help" (String "009"%char "now") /\
  Spec.commandName (String.append "!help" (String "009"%char "now")) = "help".
Proof. split; reflexivity. Qed.

(** * Further properties of the code *)

(** ** What the operations keep *)

Lemma keeps_ret {A} (a : A) : keepsState (ret a).
Proof. intros w. split; reflexivity. Qed.

Lemma keeps_throw {A} : keepsState (@throw A).
Proof. intros w. split; reflexivity. Qed.

Lemma keeps_emit e : keepsState (emit e).
Proof. intros w. split; reflexivity. Qed.

Lemma keeps_reply text : keepsState (reply text).
Proof. intros w. split; reflexivity. Qed.

Lemma keeps_getWorld : keepsState getWorld.
Proof. intros w. split; reflexivity. Qed.

Lemma keeps_bind {A B} (m : M A) (k : A -> M B) :
  keepsState m -> (forall a, keepsState (k a)) -> keepsState (bind m k).
Proof.
  intros Hm Hk w. specialize (Hm w). unfold bind.
  destruct (m w) as [[[a |] w1] t1]; unfold worldOf in *; cbn [fst snd] in *.
  - specialize (Hk a w1). unfold worldOf in Hk.
    destruct (k a w1) as [[r w2] t2]. cbn [fst snd] in *.
    destruct Hm, Hk. split; congruence.
  - exact Hm.
Qed.

Lemma keeps_tryCatch {A} (m h : M A) :
  keepsState m -> keepsState h -> keepsState (tryCatch m h).
Proof.
  intros Hm Hh w. specialize (Hm w). unfold tryCatch.
  destruct (m w) as [[[a |] w1] t1]; unfold worldOf in *; cbn [fst snd] in *.
  - exact Hm.
  - specialize (Hh w1). unfold worldOf in Hh.
    destruct (h w1) as [[r w2] t2]. cbn [fst snd] in *.
    destruct Hm, Hh. split; congruence.
Qed.

Lemma keeps_existsSync path : keepsState (existsSync path).
Proof. intros w. split; reflexivity. Qed.

Lemma keeps_mkdirSync path : keepsState (mkdirSync path).
Proof. intros w. split; reflexivity. Qed.

Lemma keeps_writeFileSync x path c : keepsState (writeFileSync x path c).
Proof.
  intros w. unfold writeFileSync.
  destruct (writeSucceeds x path); [split; reflexivity |].
  unfold afterFailedWrite. destruct (failedWriteLeaves x path); split; reflexivity.
Qed.

Lemma keeps_unlinkSync path : keepsState (unlinkSync path).
Proof.
  intros w. unfold unlinkSync.
  destruct (files w !! path) as [[| c] |]; split; reflexivity.
Qed.

Lemma keeps_axios x url : keepsState (axios x url).
Proof.
  intros w. unfold axios. destruct (axiosGet x url); split; reflexivity.
Qed.

Lemma keeps_pipeToFile x path content : keepsState (pipeToFile x path content).
Proof.
  intros w. unfold pipeToFile.
  destruct (files w !! path) as [[| c] |]; destruct (streamOutcome x);
    split; reflexivity.
Qed.

Lemma keeps_sendFile x to path caption : keepsState (sendFile x to path caption).
Proof.
  intros w. unfold sendFile. destruct (sendOutcome x); split; reflexivity.
Qed.

(** One step of a proof that a command keeps the state: the rule of the
    construct at the head of the command. *)
Ltac keeps_step :=
  match goal with
  | |- forall _, _ => intro
  | |- keepsState (bind _ _) => apply keeps_bind
  | |- keepsState (tryCatch _ _) => apply keeps_tryCatch
  | |- keepsState (ret _) => apply keeps_ret
  | |- keepsState throw => apply keeps_throw
  | |- keepsState (emit _) => apply keeps_emit
  | |- keepsState (reply _) => apply keeps_reply
  | |- keepsState getWorld => apply keeps_getWorld
  | |- keepsState (existsSync _) => apply keeps_existsSync
  | |- keepsState (mkdirSync _) => apply keeps_mkdirSync
  | |- keepsState (writeFileSync _ _ _) => apply keeps_writeFileSync
  | |- keepsState (unlinkSync _) => apply keeps_unlinkSync
  | |- keepsState (axios _ _) => apply keeps_axios
  | |- keepsState (pipeToFile _ _ _) => apply keeps_pipeToFile
  | |- keepsState (sendFile _ _ _ _) => apply keeps_sendFile
  | |- keepsState (if ?b then _ else _) => destruct b
  | |- keepsState (match ?e with _ => _ end) => destruct e
  end.

Lemma keeps_saveAllowedGroups x : keepsState (saveAllowedGroups x).
Proof. unfold saveAllowedGroups. repeat keeps_step. Qed.

Lemma keeps_showHelp isOwner : keepsState (showHelp isOwner).
Proof. unfold showHelp. repeat keeps_step. Qed.

Lemma keeps_showStatus isOwner : keepsState (showStatus isOwner).
Proof. unfold showStatus. repeat keeps_step. Qed.

Lemma keeps_listGroupsLoop x ids acc : keepsState (listGroupsLoop x ids acc).
Proof.
  revert acc. induction ids as [| groupId rest IH]; intros acc; simpl.
  - apply keeps_ret.
  - apply keeps_bind; [apply keeps_emit | intros _; apply IH].
Qed.

Lemma keeps_listGroups x : keepsState (listGroups x).
Proof.
  unfold listGroups. apply keeps_bind; [apply keeps_getWorld |]. intros w.
  destruct (_ =? _)%N; [apply keeps_reply |].
  apply keeps_bind; [apply keeps_listGroupsLoop | intros; apply keeps_reply].
Qed.

Lemma keeps_downloadFile x message args : keepsState (downloadFile x message args).
Proof.
  unfold downloadFile, downloadStart, onWriterFinish, onWriterError.
  repeat keeps_step.
Qed.

Lemma keeps_uploadFile x message : keepsState (uploadFile x message).
Proof. unfold uploadFile. repeat keeps_step. Qed.

(** ** What returns *)

Lemma returns_ret {A} (a : A) : neverThrows (ret a).
Proof. intros w. exists a. reflexivity. Qed.

Lemma returns_emit e : neverThrows (emit e).
Proof. intros w. exists tt. reflexivity. Qed.

Lemma returns_reply text : neverThrows (reply text).
Proof. intros w. exists tt. reflexivity. Qed.

Lemma returns_getWorld : neverThrows getWorld.
Proof. intros w. exists w. reflexivity. Qed.

Lemma returns_modify f : neverThrows (modify f).
Proof. intros w. exists tt. reflexivity. Qed.

Lemma returns_bind {A B} (m : M A) (k : A -> M B) :
  neverThrows m -> (forall a, neverThrows (k a)) -> neverThrows (bind m k).
Proof.
  intros Hm Hk w. destruct (Hm w) as [a Ha]. unfold bind, resultOf in *.
  destruct (m w) as [[r w1] t1]. cbn [fst snd] in Ha. subst r.
  destruct (Hk a w1) as [b Hb]. unfold resultOf in Hb.
  destruct (k a w1) as [[r w2] t2]. cbn [fst snd] in *. eauto.
Qed.

(** A [try] whose [catch] block returns, returns. *)
Lemma returns_tryCatch {A} (m h : M A) :
  neverThrows h -> neverThrows (tryCatch m h).
Proof.
  intros Hh w. unfold tryCatch, resultOf.
  destruct (m w) as [[[a |] w1] t1]; cbn [fst snd]; [eauto |].
  destruct (Hh w1) as [b Hb]. unfold resultOf in Hb.
  destruct (h w1) as [[r w2] t2]. cbn [fst snd] in *. eauto.
Qed.

Lemma returns_saveAllowedGroups x : neverThrows (saveAllowedGroups x).
Proof. apply returns_tryCatch, returns_emit. Qed.

Lemma returns_addGroup x message : neverThrows (addGroup x message).
Proof.
  unfold addGroup. apply returns_bind; [apply returns_emit | intros _].
  destruct (isGroup _); [| apply returns_reply].
  apply returns_bind; [apply returns_modify | intros _].
  apply returns_bind; [apply returns_reply | intros _].
  apply returns_saveAllowedGroups.
Qed.

Lemma returns_removeGroup x message : neverThrows (removeGroup x message).
Proof.
  unfold removeGroup. apply returns_bind; [apply returns_emit | intros _].
  destruct (isGroup _); [| apply returns_reply].
  apply returns_bind; [apply returns_modify | intros _].
  apply returns_bind; [apply returns_reply | intros _].
  apply returns_saveAllowedGroups.
Qed.

(** The loop of [listGroups] asks for every group in turn, leaves the
    state alone and appends one line for each group. *)
Lemma listGroupsLoop_run x ids acc w :
  listGroupsLoop x ids acc w =
    (Ok (acc +:+ groupLines x ids), w, map GetChatById ids).
Proof.
  revert acc. induction ids as [| groupId rest IH]; intros acc.
  - simpl. unfold ret. f_equal. f_equal. f_equal.
    induction acc as [| c acc IHacc]; [reflexivity |].
    change (String c acc = String c (acc +:+ EmptyString)).
    rewrite <- IHacc. reflexivity.
  - simpl listGroupsLoop. unfold bind, emit. cbv beta iota.
    rewrite IH. cbn [app map groupLines].
    rewrite !append_assoc. reflexivity.
Qed.

Lemma returns_listGroups x : neverThrows (listGroups x).
Proof.
  unfold listGroups. apply returns_bind; [apply returns_getWorld | intros w0].
  destruct (_ =? _)%N; [apply returns_reply |].
  apply returns_bind; [| intros; apply returns_reply].
  intros w. rewrite listGroupsLoop_run. eexists. reflexivity.
Qed.

Lemma returns_uploadFile x message : neverThrows (uploadFile x message).
Proof.
  unfold uploadFile. destruct (negb _); [apply returns_reply |].
  apply returns_bind; [apply returns_emit | intros _].
  destruct (negb _); [apply returns_reply |].
  apply returns_tryCatch.
  apply returns_bind; [apply returns_emit | intros _; apply returns_reply].
Qed.

(** How the [try] block of [downloadFile] is left: through its [catch];
    with the writer in error; or with the writer finished and the file at
    the temporary path. *)
Lemma downloadStart_cases x url w :
  exists w' t,
    downloadStart x url w = (Ok None, w', t) \/
    (exists path name,
        downloadStart x url w = (Ok (Some (path, name, OnError)), w', t)) \/
    (exists path name c,
        downloadStart x url w = (Ok (Some (path, name, OnFinish)), w', t) /\
        files w' !! path = Some (File c)).
Proof.
  unfold downloadStart, tryCatch, bind, reply, emit, axios, existsSync, ret.
  cbv beta iota. destruct (axiosGet x url) as [response |]; cbv beta iota zeta;
    [| eexists _, _; left; reflexivity].
  destruct (bool_decide (is_Some (files w !! "temp")));
    cbn [negb]; cbv beta iota; unfold mkdirSync, pipeToFile; cbv beta iota;
    cbn [files setFiles];
    destruct (_ !! Path.join _ _) as [[| c] |];
    destruct (streamOutcome x); eexists _, _;
    first
      [ right; left; eexists _, _; reflexivity
      | right; right; eexists _, _, _;
        split; [reflexivity | cbn [files setFiles]; apply lookup_insert_eq] ].
Qed.

Lemma returns_downloadFile x message args :
  neverThrows (downloadFile x message args).
Proof.
  intros w. unfold downloadFile. destruct args as [| url rest];
    [eexists; reflexivity |].
  destruct (downloadStart_cases x url w)
    as (w' & t & [Hrun | [(path & name & Hrun) | (path & name & c & Hrun & Hfile)]]);
    rewrite (bind_ok _ _ _ _ _ _ Hrun); unfold after.
  - eexists. reflexivity.
  - eexists. reflexivity.
  - destruct (onWriterFinish_removes x message path name w' c Hfile) as [Hok _].
    unfold resultOf in *.
    destruct (onWriterFinish x message path name w') as [[r w2] t2].
    cbn [fst snd] in *. eauto.
Qed.

Lemma returns_showStatus isOwner : neverThrows (showStatus isOwner).
Proof.
  unfold showStatus. destruct (negb isOwner); [apply returns_ret |].
  apply returns_bind; [apply returns_getWorld | intros; apply returns_reply].
Qed.

Lemma returns_dispatch x message isOwner command args :
  neverThrows (dispatch x message isOwner command args).
Proof.
  unfold dispatch.
  repeat match goal with
         | |- neverThrows (if ?b then _ else _) => destruct b
         end;
    first
      [ apply returns_ret | apply returns_reply | apply returns_addGroup
      | apply returns_removeGroup | apply returns_listGroups
      | apply returns_downloadFile | apply returns_uploadFile
      | apply returns_showStatus
      | unfold showHelp; apply returns_reply ].
Qed.

(** How the handler goes on after its checks: it stops with nothing but
    its look-ups, or it dispatches the command of a permitted sender. *)
Lemma onMessage_cases x message w :
  onMessage x message w = (Ok tt, w, []) \/
  onMessage x message w = (Ok tt, w, [GetChat; GetContact]) \/
  (from message <> "status@broadcast" /\
   permitted message w /\
   JS.startsWith "!" (body message) = true /\
   onMessage x message w =
     after [GetChat; GetContact]
       (dispatch x message (String.eqb (from message) OWNER_NUMBER)
          (parseCommand (body message)) (parseArgs (body message)) w)).
Proof.
  destruct (decide (from message = "status@broadcast")) as [Hb | Hb];
    [left; apply onMessage_broadcast; exact Hb |].
  destruct (JS.startsWith "!" (body message)) eqn:Hm;
    [| right; left; apply onMessage_no_marker; assumption].
  destruct (decide (from message = OWNER_NUMBER)) as [Ho | Ho].
  - right; right. repeat split; try assumption; [left; exact Ho |].
    apply onMessage_dispatch; [assumption | left; exact Ho | assumption].
  - destruct (decide (chat_id (chat message) ∈ allowedGroups w)) as [Hg | Hg].
    + right; right. repeat split; try assumption; [right; exact Hg |].
      apply onMessage_dispatch; [assumption | right; exact Hg | assumption].
    + right; left. apply onMessage_not_permitted; assumption.
Qed.

(** ** The handler as a whole *)

(** The handler returns on every message and in every state: what the
    network, the stream, the sending and the disk throw is caught inside
    the commands. *)
Theorem onMessage_always_returns x message w :
  resultOf (onMessage x message w) = Ok tt.
Proof.
  destruct (onMessage_cases x message w) as [-> | [-> | (_ & _ & _ & ->)]];
    [reflexivity | reflexivity |].
  destruct (returns_dispatch x message (String.eqb (from message) OWNER_NUMBER)
              (parseCommand (body message)) (parseArgs (body message)) w)
    as [[] Hok].
  unfold resultOf, after in *.
  destruct (dispatch _ _ _ _ _ _) as [[r w'] t]. exact Hok.
Qed.

Lemma addGroup_direct_chat x message w :
  isGroup (chat message) = false ->
  addGroup x message w = (Ok tt, w, [GetChat; Reply Text.groupsOnly]).
Proof. intros H. unfold addGroup. rewrite H. reflexivity. Qed.

Lemma removeGroup_direct_chat x message w :
  isGroup (chat message) = false ->
  removeGroup x message w = (Ok tt, w, [GetChat; Reply Text.groupsOnly]).
Proof. intros H. unfold removeGroup. rewrite H. reflexivity. Qed.

(** What a command does to the variables of the module: the readiness
    flag stays, and the allow-list stays unless the owner adds or removes
    the group of the chat. *)
Lemma dispatch_state x message isOwner command args w :
  let w' := worldOf (dispatch x message isOwner command args w) in
  isBotReady w' = isBotReady w /\
  (allowedGroups w' = allowedGroups w \/
   (isOwner = true /\ isGroup (chat message) = true /\
    ((command = "addgroup" /\
      allowedGroups w' = JSSet.add (chat_id (chat message)) (allowedGroups w)) \/
     (command = "removegroup" /\
      allowedGroups w' = JSSet.delete (chat_id (chat message)) (allowedGroups w))))).
Proof.
  assert (forall m : M unit, keepsState m ->
            isBotReady (worldOf (m w)) = isBotReady w /\
            (allowedGroups (worldOf (m w)) = allowedGroups w \/
             (isOwner = true /\ isGroup (chat message) = true /\
              ((command = "addgroup" /\
                allowedGroups (worldOf (m w)) =
                  JSSet.add (chat_id (chat message)) (allowedGroups w)) \/
               (command = "removegroup" /\
                allowedGroups (worldOf (m w)) =
                  JSSet.delete (chat_id (chat message)) (allowedGroups w))))))
    as Hkeep.
  { intros m Hm. destruct (Hm w) as [Ha Hr]. split; [exact Hr | left; exact Ha]. }
  cbv zeta. unfold dispatch.
  destruct (String.eqb command "help"); [apply Hkeep, keeps_showHelp |].
  destruct (String.eqb command "addgroup") eqn:Eadd.
  { apply String.eqb_eq in Eadd.
    destruct isOwner; [| apply Hkeep, keeps_ret].
    destruct (isGroup (chat message)) eqn:Hg.
    - rewrite addGroup_in_group by exact Hg. rewrite worldOf_after.
      destruct (keeps_saveAllowedGroups x
                  (setAllowedGroups
                     (JSSet.add (chat_id (chat message)) (allowedGroups w)) w))
        as [Ha Hr].
      split; [exact Hr |]. right. split; [reflexivity |]. split; [reflexivity |].
      left. split; [exact Eadd | exact Ha].
    - rewrite addGroup_direct_chat by exact Hg. split; [reflexivity | left; reflexivity]. }
  destruct (String.eqb command "removegroup") eqn:Eremove.
  { apply String.eqb_eq in Eremove.
    destruct isOwner; [| apply Hkeep, keeps_ret].
    destruct (isGroup (chat message)) eqn:Hg.
    - rewrite removeGroup_in_group by exact Hg. rewrite worldOf_after.
      destruct (keeps_saveAllowedGroups x
                  (setAllowedGroups
                     (JSSet.delete (chat_id (chat message)) (allowedGroups w)) w))
        as [Ha Hr].
      split; [exact Hr |]. right. split; [reflexivity |]. split; [reflexivity |].
      right. split; [exact Eremove | exact Ha].
    - rewrite removeGroup_direct_chat by exact Hg. split; [reflexivity | left; reflexivity]. }
  destruct (String.eqb command "listgroups");
    [destruct isOwner; [apply Hkeep, keeps_listGroups | apply Hkeep, keeps_ret] |].
  destruct (String.eqb command "download"); [apply Hkeep, keeps_downloadFile |].
  destruct (String.eqb command "upload"); [apply Hkeep, keeps_uploadFile |].
  destruct (String.eqb command "status"); [apply Hkeep, keeps_showStatus |].
  apply Hkeep, keeps_reply.
Qed.

(** No message changes the readiness flag, whoever sends it. *)
Theorem onMessage_keeps_readiness x message w :
  isBotReady (worldOf (onMessage x message w)) = isBotReady w.
Proof.
  destruct (onMessage_cases x message w) as [-> | [-> | (_ & _ & _ & ->)]];
    [reflexivity | reflexivity |].
  rewrite worldOf_after. apply dispatch_state.
Qed.

(** The allow-list changes only through [addgroup] or [removegroup] sent
    by the owner in a group chat. *)
Theorem allow_list_changes_only_by_owner x message w :
  allowedGroups (worldOf (onMessage x message w)) <> allowedGroups w ->
  from message = OWNER_NUMBER /\
  isGroup (chat message) = true /\
  JS.startsWith "!" (body message) = true /\
  (parseCommand (body message) = "addgroup" \/
   parseCommand (body message) = "removegroup").
Proof.
  intros Hchanged.
  destruct (onMessage_cases x message w) as [H | [H | (_ & _ & Hm & H)]];
    rewrite H in Hchanged; [contradiction | contradiction |].
  rewrite worldOf_after in Hchanged.
  destruct (dispatch_state x message (String.eqb (from message) OWNER_NUMBER)
              (parseCommand (body message)) (parseArgs (body message)) w)
    as [_ [Hsame | (Ho & Hg & Hc)]]; [contradiction |].
  apply String.eqb_eq in Ho.
  repeat split; try assumption.
  destruct Hc as [[Hc _] | [Hc _]]; [left | right]; exact Hc.
Qed.

Lemma add_NoDup g s : NoDup s -> NoDup (JSSet.add g s).
Proof.
  intros H. unfold JSSet.add, JSSet.has. case_bool_decide as Hin; [exact H |].
  apply NoDup_app. split; [exact H |]. split.
  - intros h Hh Hh'. apply list_elem_of_singleton in Hh'. subst h. contradiction.
  - apply NoDup_singleton.
Qed.

Lemma delete_NoDup g s : NoDup s -> NoDup (JSSet.delete g s).
Proof. intros H. unfold JSSet.delete. apply NoDup_filter. exact H. Qed.

(** The allow-list never holds a group twice: a list without repetition
    stays one under every message. *)
Theorem allow_list_stays_without_repetition x message w :
  NoDup (allowedGroups w) ->
  NoDup (allowedGroups (worldOf (onMessage x message w))).
Proof.
  intros Hnd.
  destruct (onMessage_cases x message w) as [-> | [-> | (_ & _ & _ & ->)]];
    [exact Hnd | exact Hnd |].
  rewrite worldOf_after.
  destruct (dispatch_state x message (String.eqb (from message) OWNER_NUMBER)
              (parseCommand (body message)) (parseArgs (body message)) w)
    as [_ [-> | (_ & _ & [[_ ->] | [_ ->]])]];
    [exact Hnd | apply add_NoDup; exact Hnd | apply delete_NoDup; exact Hnd].
Qed.

(** ** The group commands *)

Lemma add_elem_iff g h s : h ∈ JSSet.add g s <-> h = g \/ h ∈ s.
Proof.
  unfold JSSet.add, JSSet.has. case_bool_decide as Hin.
  - split; [intros H; right; exact H | intros [-> | H]; assumption].
  - rewrite elem_of_app, list_elem_of_singleton. tauto.
Qed.

Lemma delete_elem_iff g h s : h ∈ JSSet.delete g s <-> h <> g /\ h ∈ s.
Proof. unfold JSSet.delete. rewrite list_elem_of_filter. reflexivity. Qed.

Lemma delete_absent g s : g ∉ s -> JSSet.delete g s = s.
Proof.
  unfold JSSet.delete. induction s as [| h s IH]; intros Hg; [reflexivity |].
  apply not_elem_of_cons in Hg as [Hne Hs].
  rewrite filter_cons_True by congruence. rewrite IH by exact Hs. reflexivity.
Qed.

(** The owner's [addgroup] in a group chat: afterwards the allow-list
    holds the group of the chat and what it held before; a group that was
    there already is not added a second time, a new one goes to the end;
    the confirmation is sent whether the file could be written or not, and
    when it could, the file holds the new list. *)
Theorem addgroup_by_owner x message w :
  from message = OWNER_NUMBER ->
  isGroup (chat message) = true ->
  JS.startsWith "!" (body message) = true ->
  parseCommand (body message) = "addgroup" ->
  let g := chat_id (chat message) in
  let w' := worldOf (onMessage x message w) in
  (forall h, h ∈ allowedGroups w' <-> h = g \/ h ∈ allowedGroups w) /\
  (g ∈ allowedGroups w -> allowedGroups w' = allowedGroups w) /\
  (g ∉ allowedGroups w -> allowedGroups w' = allowedGroups w ++ [g]) /\
  In (Reply Text.groupAdded) (eventsOf (onMessage x message w)) /\
  (writeSucceeds x "allowed-groups.json" = true ->
   persistedGroups w' = Some (allowedGroups w')).
Proof.
  intros Ho Hg Hm Hc g w'.
  assert (onMessage x message w =
          after [GetChat; GetContact; GetChat; Reply Text.groupAdded]
            (saveAllowedGroups x
               (setAllowedGroups (JSSet.add g (allowedGroups w)) w))) as Hrun.
  { rewrite onMessage_owner by assumption.
    rewrite Hc, dispatch_addgroup, addGroup_in_group by exact Hg.
    destruct (saveAllowedGroups _ _) as [[r w0] t]. reflexivity. }
  assert (allowedGroups w' = JSSet.add g (allowedGroups w)) as Hlist.
  { unfold w'. rewrite Hrun, worldOf_after. apply keeps_saveAllowedGroups. }
  split; [intros h; rewrite Hlist; apply add_elem_iff |].
  split; [| split; [| split]].
  - intros Hin. rewrite Hlist. unfold JSSet.add, JSSet.has.
    rewrite bool_decide_eq_true_2 by exact Hin. reflexivity.
  - intros Hout. rewrite Hlist. unfold JSSet.add, JSSet.has.
    rewrite bool_decide_eq_false_2 by exact Hout. reflexivity.
  - rewrite Hrun, eventsOf_after. apply in_or_app. left. simpl. tauto.
  - intros Hwr. unfold w'. rewrite Hrun, worldOf_after.
    rewrite saveAllowedGroups_written by exact Hwr.
    unfold worldOf, persistedGroups. cbn [fst snd files setFiles allowedGroups setAllowedGroups].
    rewrite lookup_insert_eq. reflexivity.
Qed.

(** The owner's [removegroup] in a group chat: afterwards the allow-list
    holds what it held before but the group of the chat, in the same
    order; removing a group that is not there changes nothing, and is
    confirmed all the same. *)
Theorem removegroup_by_owner x message w :
  from message = OWNER_NUMBER ->
  isGroup (chat message) = true ->
  JS.startsWith "!" (body message) = true ->
  parseCommand (body message) = "removegroup" ->
  let g := chat_id (chat message) in
  let w' := worldOf (onMessage x message w) in
  (forall h, h ∈ allowedGroups w' <-> h <> g /\ h ∈ allowedGroups w) /\
  allowedGroups w' = filter (fun h => h <> g) (allowedGroups w) /\
  (g ∉ allowedGroups w -> allowedGroups w' = allowedGroups w) /\
  In (Reply Text.groupRemoved) (eventsOf (onMessage x message w)).
Proof.
  intros Ho Hg Hm Hc g w'.
  assert (onMessage x message w =
          after [GetChat; GetContact; GetChat; Reply Text.groupRemoved]
            (saveAllowedGroups x
               (setAllowedGroups (JSSet.delete g (allowedGroups w)) w))) as Hrun.
  { rewrite onMessage_owner by assumption.
    rewrite Hc, dispatch_removegroup, removeGroup_in_group by exact Hg.
    destruct (saveAllowedGroups _ _) as [[r w0] t]. reflexivity. }
  assert (allowedGroups w' = JSSet.delete g (allowedGroups w)) as Hlist.
  { unfold w'. rewrite Hrun, worldOf_after. apply keeps_saveAllowedGroups. }
  split; [intros h; rewrite Hlist; apply delete_elem_iff |].
  split; [exact Hlist |]. split.
  - intros Hout. rewrite Hlist. apply delete_absent. exact Hout.
  - rewrite Hrun, eventsOf_after. apply in_or_app. left. simpl. tauto.
Qed.

(** In a chat that is not a group the owner's [addgroup] and
    [removegroup] only answer that the command is for groups: the
    allow-list and the disk stay as they are. *)
Theorem group_commands_in_direct_chat x message w :
  from message = OWNER_NUMBER ->
  isGroup (chat message) = false ->
  JS.startsWith "!" (body message) = true ->
  parseCommand (body message) = "addgroup" \/
  parseCommand (body message) = "removegroup" ->
  onMessage x message w =
    (Ok tt, w, [GetChat; GetContact; GetChat; Reply Text.groupsOnly]).
Proof.
  intros Ho Hg Hm Hc. rewrite onMessage_owner by assumption.
  destruct Hc as [-> | ->].
  - rewrite dispatch_addgroup, addGroup_direct_chat by exact Hg. reflexivity.
  - rewrite dispatch_removegroup, removeGroup_direct_chat by exact Hg. reflexivity.
Qed.

(** The commands of the owner sent by somebody else are passed over in
    silence, also in a chat of the allow-list: no reply, no change, no
    effect but the two look-ups. *)
Theorem owner_commands_ignored_for_others x message w :
  from message <> OWNER_NUMBER ->
  parseCommand (body message) = "addgroup" \/
  parseCommand (body message) = "removegroup" \/
  parseCommand (body message) = "listgroups" \/
  parseCommand (body message) = "status" ->
  onMessage x message w = (Ok tt, w, []) \/
  onMessage x message w = (Ok tt, w, [GetChat; GetContact]).
Proof.
  intros Ho Hc.
  destruct (onMessage_cases x message w) as [H | [H | (_ & _ & _ & H)]];
    [left; exact H | right; exact H |].
  right. rewrite H. apply String.eqb_neq in Ho. rewrite Ho.
  destruct Hc as [-> | [-> | [-> | ->]]]; reflexivity.
Qed.

(** A permitted command that is none of the seven is answered with the
    text for unknown commands, and with nothing else. *)
Theorem unknown_command_reply x message w :
  from message <> "status@broadcast" ->
  permitted message w ->
  JS.startsWith "!" (body message) = true ->
  parseCommand (body message) ∉
    ["help"; "addgroup"; "removegroup"; "listgroups"; "download"; "upload";
     "status"] ->
  onMessage x message w =
    (Ok tt, w, [GetChat; GetContact; Reply Text.unknown]).
Proof.
  intros Hb Hp Hm Hc. rewrite onMessage_dispatch by assumption.
  unfold dispatch.
  repeat match goal with
         | |- context [String.eqb (parseCommand ?b) ?name] =>
             destruct (String.eqb_spec (parseCommand b) name) as [Heq | _];
             [exfalso; apply Hc; rewrite Heq; set_solver |]
         end.
  reflexivity.
Qed.

Lemma listGroups_run x w :
  listGroups x w =
    match allowedGroups w with
    | [] => (Ok tt, w, [Reply Text.noGroups])
    | _ :: _ =>
        (Ok tt, w,
         map GetChatById (allowedGroups w) ++
         [Reply ("*Allowed Groups:*" +:+ JS.nl +:+ JS.nl
                 +:+ groupLines x (allowedGroups w))])
    end.
Proof.
  unfold listGroups, bind, getWorld. cbv beta iota.
  destruct (allowedGroups w) as [| g rest] eqn:Hl; [reflexivity |].
  change ((JSSet.size (g :: rest) =? 0)%N) with false. cbv beta iota.
  rewrite listGroupsLoop_run. unfold reply, emit.
  rewrite !append_assoc. reflexivity.
Qed.

(** The owner's [listgroups]: with an empty allow-list the answer says
    that no group is allowed; otherwise every group is looked up once, in
    the order in which the groups were added, and the one reply has a line
    with the name of each, in that order.  Nothing is changed. *)
Theorem listgroups_by_owner x message w :
  from message = OWNER_NUMBER ->
  JS.startsWith "!" (body message) = true ->
  parseCommand (body message) = "listgroups" ->
  (allowedGroups w = [] ->
   onMessage x message w =
     (Ok tt, w, [GetChat; GetContact; Reply Text.noGroups])) /\
  (allowedGroups w <> [] ->
   onMessage x message w =
     (Ok tt, w,
      [GetChat; GetContact] ++ map GetChatById (allowedGroups w) ++
      [Reply ("*Allowed Groups:*" +:+ JS.nl +:+ JS.nl
              +:+ groupLines x (allowedGroups w))])).
Proof.
  intros Ho Hm Hc. rewrite onMessage_owner by assumption. rewrite Hc.
  change (dispatch x message true "listgroups" (parseArgs (body message)) w)
    with (listGroups x w).
  rewrite listGroups_run. split; intros Hl.
  - rewrite Hl. reflexivity.
  - destruct (allowedGroups w); [contradiction | reflexivity].
Qed.

(** ** Download *)

(** A [download] whose request fails: the sender is told that the
    download failed, and nothing is created on disk. *)
Theorem download_request_fails x message w url rest :
  from message <> "status@broadcast" ->
  permitted message w ->
  JS.startsWith "!" (body message) = true ->
  parseCommand (body message) = "download" ->
  parseArgs (body message) = url :: rest ->
  axiosGet x url = None ->
  onMessage x message w =
    (Ok tt, w,
     [GetChat; GetContact; Reply Text.downloading; HttpGet url;
      ConsoleError "Error downloading file:"; Reply Text.downloadFailed]).
Proof.
  intros Hb Hp Hm Hc Ha Hax. rewrite onMessage_dispatch by assumption.
  rewrite Hc, Ha, dispatch_download.
  unfold downloadFile, downloadStart, tryCatch, bind, reply, emit, axios, ret.
  cbv beta iota. rewrite Hax. reflexivity.
Qed.


(** ** File names and paths *)

Lemma hasChar_app c a b : hasChar c (a +:+ b) = hasChar c a || hasChar c b.
Proof.
  induction a as [| d a IH]; [reflexivity |].
  change (Ascii.eqb d c || hasChar c (a +:+ b)
          = (Ascii.eqb d c || hasChar c a) || hasChar c b).
  rewrite IH. apply orb_assoc.
Qed.

Lemma hasChar_In c s : In c (list_ascii_of_string s) -> hasChar c s = true.
Proof.
  induction s as [| d s IH]; simpl; [contradiction |].
  intros [-> | H].
  - rewrite Ascii.eqb_refl. reflexivity.
  - rewrite (IH H). apply orb_true_r.
Qed.

Lemma chars_app a b :
  list_ascii_of_string (a +:+ b) =
  list_ascii_of_string a ++ list_ascii_of_string b.
Proof.
  induction a as [| d a IH]; [reflexivity |].
  change (d :: list_ascii_of_string (a +:+ b)
          = d :: (list_ascii_of_string a ++ list_ascii_of_string b)).
  rewrite IH. reflexivity.
Qed.

Lemma endsWithSlash_no_slash p :
  hasChar JS.SLASH p = false -> Path.endsWithSlash p = false.
Proof.
  intros H. unfold Path.endsWithSlash.
  destruct (rev (list_ascii_of_string p)) as [| c r] eqn:Hrev; [reflexivity |].
  destruct (Ascii.eqb c JS.SLASH) eqn:Hc; [| reflexivity].
  apply Ascii.eqb_eq in Hc. subst c.
  rewrite hasChar_In in H; [discriminate |].
  apply in_rev. rewrite Hrev. left. reflexivity.
Qed.

Lemma endsWithSlash_app a b :
  JS.nonEmpty b = true ->
  Path.endsWithSlash (a +:+ b) = Path.endsWithSlash b.
Proof.
  intros Hb. unfold Path.endsWithSlash. rewrite chars_app, rev_app_distr.
  destruct b as [| c b]; [discriminate |].
  destruct (rev (list_ascii_of_string (String c b))) as [| d r] eqn:Hrev;
    [| reflexivity].
  apply (f_equal (@length ascii)) in Hrev. rewrite length_rev in Hrev.
  discriminate.
Qed.

(** Joining a directory and a plain name puts a slash between them. *)
Lemma path_join_plain dir name :
  plainSegment dir -> plainSegment name ->
  Path.join dir name = dir +:+ "/" +:+ name.
Proof.
  intros (Hds & Hd0 & Hd1 & Hd2) (Hns & Hn0 & Hn1 & Hn2).
  unfold Path.join.
  assert (JS.nonEmpty name = true) as -> by (destruct name; [contradiction | reflexivity]).
  unfold Path.normalize.
  change (dir +:+ "/" +:+ name) with (dir +:+ String JS.SLASH name).
  rewrite split_app by exact Hds. rewrite split_no_sep by exact Hns.
  unfold Path.normalizeSegments. cbn [fold_left]. unfold Path.pushSegment.
  apply String.eqb_neq in Hd0, Hd1, Hd2, Hn0, Hn1, Hn2.
  rewrite Hd0, Hd1, Hd2. cbn [orb]. rewrite Hn0, Hn1, Hn2. cbn [orb rev app JS.join].
  assert (JS.nonEmpty (dir +:+ String JS.SLASH name) = true) as ->
    by (destruct dir; reflexivity).
  rewrite endsWithSlash_app by reflexivity.
  change (String JS.SLASH name) with ("/" +:+ name).
  rewrite endsWithSlash_app by (destruct name; [discriminate | reflexivity]).
  rewrite endsWithSlash_no_slash by exact Hns. reflexivity.
Qed.

Lemma digits_no_slash d : hasChar JS.SLASH (NilEmpty.string_of_uint d) = false.
Proof. induction d; simpl; try rewrite IHd; reflexivity. Qed.

Lemma decimal_no_slash n : hasChar JS.SLASH (JS.decimal n) = false.
Proof.
  unfold JS.decimal, NilZero.string_of_uint.
  destruct (N.to_uint n); try apply digits_no_slash. reflexivity.
Qed.

Lemma extensionOf_no_slash mimetype :
  hasChar JS.SLASH (extensionOf mimetype) = false.
Proof.
  unfold extensionOf.
  pose proof (split_pieces JS.SLASH mimetype) as H.
  destruct (JS.split JS.SLASH mimetype) as [| p [| q ps]]; try reflexivity.
  inversion H as [| ? ? _ H']; subst. inversion H'; subst. assumption.
Qed.

(** The name under which an upload is saved is one plain segment, whatever
    the MIME type says: the file lies directly in [uploads]. *)
Theorem upload_stays_in_uploads now mimetype :
  hasChar JS.SLASH (uploadFilename now mimetype) = false /\
  Path.join "uploads" (uploadFilename now mimetype) =
    "uploads/" +:+ uploadFilename now mimetype.
Proof.
  assert (hasChar JS.SLASH (uploadFilename now mimetype) = false) as Hslash.
  { unfold uploadFilename. rewrite !hasChar_app.
    rewrite decimal_no_slash, extensionOf_no_slash. reflexivity. }
  split; [exact Hslash |].
  rewrite path_join_plain; [reflexivity | |].
  - repeat split; discriminate.
  - split; [exact Hslash |]. unfold uploadFilename. repeat split; discriminate.
Qed.

Lemma split_app_two sep a b :
  exists p q ps, JS.split sep (a +:+ String sep b) = p :: q :: ps.
Proof.
  induction a as [| c a (p & q & ps & IH)].
  - change (EmptyString +:+ String sep b) with (String sep b). simpl.
    rewrite Ascii.eqb_refl.
    destruct (split_cons sep b) as (q & ps & ->). eauto.
  - change (String c a +:+ String sep b) with (String c (a +:+ String sep b)).
    simpl. rewrite IH. destruct (Ascii.eqb c sep); eauto.
Qed.

Lemma last_split_app sep a b d :
  List.last (JS.split sep (a +:+ String sep b)) d = List.last (JS.split sep b) d.
Proof.
  induction a as [| c a IH].
  - change (EmptyString +:+ String sep b) with (String sep b). simpl.
    rewrite Ascii.eqb_refl.
    destruct (split_cons sep b) as (q & ps & ->). reflexivity.
  - change (String c a +:+ String sep b) with (String c (a +:+ String sep b)).
    destruct (split_app_two sep a b) as (p & q & ps & Hs).
    simpl JS.split. rewrite Hs in IH |- *.
    destruct (Ascii.eqb c sep); exact IH.
Qed.

(** Without a [content-disposition] header the downloaded file is named
    by what the URL has after its last slash, and when that is a plain
    name it is written to [temp/<name>]. *)
Theorem download_named_after_url base name response :
  contentDisposition response = None ->
  hasChar JS.SLASH name = false ->
  downloadFilename (base +:+ "/" +:+ name) response = name /\
  (name <> EmptyString -> name <> "." -> name <> ".." ->
   Path.join "temp" (downloadFilename (base +:+ "/" +:+ name) response)
     = "temp/" +:+ name).
Proof.
  intros Hcd Hname.
  assert (downloadFilename (base +:+ "/" +:+ name) response = name) as Hfile.
  { unfold downloadFilename. rewrite Hcd.
    change (base +:+ "/" +:+ name) with (base +:+ String JS.SLASH name).
    rewrite last_split_app, split_no_sep by exact Hname. reflexivity. }
  split; [exact Hfile |]. intros H0 H1 H2. rewrite Hfile.
  rewrite path_join_plain; [reflexivity | |].
  - repeat split; discriminate.
  - repeat split; assumption.
Qed.

Lemma append_split_at c a1 b1 a2 b2 :
  hasChar c a1 = false -> hasChar c a2 = false ->
  a1 +:+ String c b1 = a2 +:+ String c b2 ->
  a1 = a2 /\ b1 = b2.
Proof.
  revert a2. induction a1 as [| d a1 IH]; intros a2 H1 H2 Heq.
  - destruct a2 as [| e a2].
    + injection Heq as ->. split; reflexivity.
    + change (String c b1 = String e (a2 +:+ String c b2)) in Heq.
      injection Heq as <- _. simpl in H2. rewrite Ascii.eqb_refl in H2.
      discriminate.
  - simpl in H1. apply orb_false_iff in H1 as [Hd H1].
    destruct a2 as [| e a2].
    + change (String d (a1 +:+ String c b1) = String c b2) in Heq.
      injection Heq as -> _. rewrite Ascii.eqb_refl in Hd. discriminate.
    + change (String d (a1 +:+ String c b1) = String e (a2 +:+ String c b2))
        in Heq.
      injection Heq as -> Heq. simpl in H2. apply orb_false_iff in H2 as [_ H2].
      destruct (IH a2 H1 H2 Heq) as [-> ->]. split; reflexivity.
Qed.

Lemma digits_no_dot d : hasChar "."%char (NilEmpty.string_of_uint d) = false.
Proof. induction d; simpl; try rewrite IHd; reflexivity. Qed.

Lemma decimal_no_dot n : hasChar "."%char (JS.decimal n) = false.
Proof.
  unfold JS.decimal, NilZero.string_of_uint.
  destruct (N.to_uint n); try apply digits_no_dot. reflexivity.
Qed.

Lemma decimal_inj n m : JS.decimal n = JS.decimal m -> n = m.
Proof.
  assert (forall k, N.to_uint k <> Decimal.Nil) as Hnil.
  { intros [| p]; [discriminate | apply DecimalPos.Unsigned.to_uint_nonnil]. }
  unfold JS.decimal. intros H.
  apply (f_equal NilZero.uint_of_string) in H.
  rewrite !NilZero.usu in H by apply Hnil.
  injection H as H. apply DecimalN.Unsigned.to_uint_inj. exact H.
Qed.

(** The names of two uploads agree only when the clock showed the same
    millisecond and the MIME types give the same extension: uploads at
    different times never replace each other. *)
Theorem upload_names_differ now1 now2 mimetype1 mimetype2 :
  uploadFilename now1 mimetype1 = uploadFilename now2 mimetype2 ->
  now1 = now2 /\ extensionOf mimetype1 = extensionOf mimetype2.
Proof.
  unfold uploadFilename. intros H.
  assert (JS.decimal now1 +:+ String "."%char (extensionOf mimetype1)
          = JS.decimal now2 +:+ String "."%char (extensionOf mimetype2)) as H'.
  { injection H as H. exact H. }
  apply append_split_at in H'; try apply decimal_no_dot.
  destruct H' as [Hn He]. split; [apply decimal_inj; exact Hn | exact He].
Qed.

(** ** The name in the [content-disposition] header *)

Lemma dotStar_id f :
  hasChar JS.LF f = false -> hasChar JS.CR f = false -> JS.dotStar f = f.
Proof.
  induction f as [| c f IH]; simpl; [reflexivity |].
  intros H1 H2. apply orb_false_iff in H1 as [Hc1 H1].
  apply orb_false_iff in H2 as [Hc2 H2].
  unfold JS.isLineTerminator. rewrite Hc1, Hc2. cbn [orb].
  rewrite IH by assumption. reflexivity.
Qed.

Lemma matchFilename_at s cap :
  matchFilenameAt s = Some cap -> matchFilename s = Some cap.
Proof.
  intros H. destruct s as [| c s].
  - vm_compute in H. discriminate H.
  - change (matchFilename (String c s))
      with (match matchFilenameAt (String c s) with
            | Some found => Some found
            | None => matchFilename s
            end).
    rewrite H. reflexivity.
Qed.

Lemma matchFilename_attachment f :
  matchFilename ("attachment; filename=" +:+ f)
  = matchFilename ("filename=" +:+ f).
Proof. reflexivity. Qed.

(** An unquoted name in the header is the name of the file, whatever the
    URL is, with everything that follows it on the line. *)
Theorem header_names_file url response f :
  contentDisposition response = Some ("attachment; filename=" +:+ f) ->
  f <> EmptyString ->
  hasChar JS.DQUOTE f = false ->
  hasChar JS.LF f = false -> hasChar JS.CR f = false ->
  downloadFilename url response = f.
Proof.
  intros Hcd Hne Hq Hlf Hcr. unfold downloadFilename. rewrite Hcd.
  change (JS.nonEmpty ("attachment; filename=" +:+ f)) with true. cbv iota.
  rewrite matchFilename_attachment.
  rewrite (matchFilename_at _ f); [reflexivity |].
  unfold matchFilenameAt.
  change (JS.dropPrefix "filename=" ("filename=" +:+ f)) with (Some f).
  cbv iota. rewrite (dotStar_id f) by assumption.
  destruct f as [| c r]; [contradiction |].
  simpl in Hq. apply orb_false_iff in Hq as [Hc _]. rewrite Hc. reflexivity.
Qed.

(** A quoted name in the header keeps its closing quote: the file is
    named by the text between the quotes followed by a quote. *)
Theorem quoted_header_keeps_closing_quote url response g :
  contentDisposition response =
    Some ("attachment; filename="
          +:+ String JS.DQUOTE (g +:+ String JS.DQUOTE EmptyString)) ->
  hasChar JS.LF g = false -> hasChar JS.CR g = false ->
  downloadFilename url response = g +:+ String JS.DQUOTE EmptyString.
Proof.
  intros Hcd Hlf Hcr. unfold downloadFilename. rewrite Hcd.
  match goal with
  | |- context [JS.nonEmpty ?s] => change (JS.nonEmpty s) with true
  end.
  cbv iota. rewrite matchFilename_attachment.
  rewrite (matchFilename_at _ (g +:+ String JS.DQUOTE EmptyString));
    [reflexivity |].
  unfold matchFilenameAt.
  match goal with
  | |- context [JS.dropPrefix ?p ?s] =>
      change (JS.dropPrefix p s)
        with (Some (String JS.DQUOTE (g +:+ String JS.DQUOTE EmptyString)))
  end.
  cbv iota.
  rewrite (dotStar_id (g +:+ String JS.DQUOTE EmptyString))
    by (rewrite hasChar_app; first [rewrite Hlf | rewrite Hcr]; reflexivity).
  change (Ascii.eqb JS.DQUOTE JS.DQUOTE) with true.
  assert (JS.nonEmpty (g +:+ String JS.DQUOTE EmptyString) = true) as ->
    by (destruct g; reflexivity).
  reflexivity.
Qed.

(** ** Upload that fails *)

(** When the quoted attachment cannot be had, or cannot be written, the
    sender is told so: the attachment resolving to nothing gives the text
    for a failed download, and a rejection or a failed write gives the
    text for a failed upload, after the error was logged.  In the first
    two cases the disk stays as it is; after a failed write the disk is as
    that write left it: unchanged when the file could not be opened, with
    a truncated or partial file at the path of the upload otherwise. *)
Theorem upload_failures_are_reported x message w :
  from message <> "status@broadcast" ->
  permitted message w ->
  JS.startsWith "!" (body message) = true ->
  parseCommand (body message) = "upload" ->
  hasQuotedMsg message = true ->
  hasMedia (quoted message) = true ->
  (downloadMedia (quoted message) = MediaNone ->
   onMessage x message w =
     (Ok tt, w,
      [GetChat; GetContact; GetQuotedMessage; Reply Text.processing;
       DownloadMedia; Reply Text.mediaFailed])) /\
  (downloadMedia (quoted message) = MediaRejects ->
   onMessage x message w =
     (Ok tt, w,
      [GetChat; GetContact; GetQuotedMessage; Reply Text.processing;
       DownloadMedia; ConsoleError "Error uploading file:";
       Reply Text.uploadFailed])) /\
  (forall media,
      downloadMedia (quoted message) = MediaSome media ->
      writeSucceeds x
        (Path.join "uploads" (uploadFilename (dateNow x) (mimetype media)))
        = false ->
      let path :=
        Path.join "uploads" (uploadFilename (dateNow x) (mimetype media)) in
      onMessage x message w =
        (Ok tt,
         match failedWriteLeaves x path with
         | Some partial => setFiles (<[path := File partial]> (files w)) w
         | None => w
         end,
         [GetChat; GetContact; GetQuotedMessage; Reply Text.processing;
          DownloadMedia]
         ++ match failedWriteLeaves x path with
            | Some partial => [WriteFile path partial]
            | None => []
            end
         ++ [ConsoleError "Error uploading file:"; Reply Text.uploadFailed])).
Proof.
  intros Hb Hp Hm Hc Hq Hmedia.
  rewrite onMessage_dispatch by assumption.
  rewrite Hc, dispatch_upload. unfold uploadFile.
  rewrite Hq. cbv beta iota. unfold bind at 1. unfold emit at 1. cbv beta iota.
  rewrite Hmedia. cbv beta iota.
  unfold tryCatch, bind, reply, emit, throw. cbv beta iota.
  split; [| split].
  - intros ->. reflexivity.
  - intros ->. reflexivity.
  - intros media -> Hwr. cbv beta iota zeta. unfold writeFileSync.
    rewrite Hwr. unfold afterFailedWrite, failedWriteEvents.
    destruct (failedWriteLeaves x _); reflexivity.
Qed.

(** ** The allow-list across a restart *)

Lemma fold_add_fresh groups s :
  NoDup (s ++ groups) ->
  fold_left (fun acc g => JSSet.add g acc) groups s = s ++ groups.
Proof.
  revert s. induction groups as [| g groups IH]; intros s Hnd.
  - rewrite app_nil_r. reflexivity.
  - cbn [fold_left].
    assert (JSSet.add g s = s ++ [g]) as ->.
    { unfold JSSet.add, JSSet.has. rewrite bool_decide_eq_false_2; [reflexivity |].
      apply NoDup_app in Hnd as (_ & Hdisj & _). intros Hin.
      apply (Hdisj g Hin). left. }
    rewrite IH; rewrite <- app_assoc; [reflexivity | exact Hnd].
Qed.

Lemma fold_add_elem groups s h :
  h ∈ fold_left (fun acc g => JSSet.add g acc) groups s <-> h ∈ s \/ h ∈ groups.
Proof.
  revert s. induction groups as [| g groups IH]; intros s; cbn [fold_left].
  - rewrite elem_of_nil. tauto.
  - rewrite IH, add_elem_iff, elem_of_cons. tauto.
Qed.

Lemma fold_add_NoDup groups s :
  NoDup s -> NoDup (fold_left (fun acc g => JSSet.add g acc) groups s).
Proof.
  revert s. induction groups as [| g groups IH]; intros s H; cbn [fold_left];
    [exact H |].
  apply IH, add_NoDup, H.
Qed.

(** What is saved at the shutdown is what is loaded at the next start: a
    fresh process that finds the file written by the [SIGINT] listener
    has the same allow-list, in the same order. *)
Theorem allow_list_survives_restart x w :
  NoDup (allowedGroups w) ->
  writeSucceeds x "allowed-groups.json" = true ->
  let saved := worldOf (onSigint x w) in
  let fresh := mkWorld [] false (files saved) in
  persistedGroups saved = Some (allowedGroups w) /\
  allowedGroups (worldOf (loadAllowedGroups fresh)) = allowedGroups w.
Proof.
  intros Hnd Hwr saved fresh.
  assert (files saved !! "allowed-groups.json"
          = Some (File (JsonArray (allowedGroups w)))) as Hfile.
  { unfold saved, onSigint. rewrite saveAllowedGroups_written by exact Hwr.
    unfold worldOf. cbn [fst snd files setFiles]. apply lookup_insert_eq. }
  split; [unfold persistedGroups; rewrite Hfile; reflexivity |].
  unfold loadAllowedGroups, bind, getWorld, modify. cbv beta iota.
  unfold fresh at 1. cbn [files]. rewrite Hfile.
  unfold worldOf. cbn [fst snd allowedGroups setAllowedGroups fresh].
  apply (fold_add_fresh (allowedGroups w) []). exact Hnd.
Qed.

(** Loading merges the file into the set: afterwards the allow-list holds
    what it held and what the array in the file holds, each group once,
    also when the array names a group twice; without the file nothing
    happens. *)
Theorem load_merges_file w :
  NoDup (allowedGroups w) ->
  (forall groups,
      persistedGroups w = Some groups ->
      NoDup (allowedGroups (worldOf (loadAllowedGroups w))) /\
      forall h, h ∈ allowedGroups (worldOf (loadAllowedGroups w)) <->
                h ∈ allowedGroups w \/ h ∈ groups) /\
  (files w !! "allowed-groups.json" = None ->
   loadAllowedGroups w = (Ok tt, w, [])).
Proof.
  intros Hnd. split.
  - intros groups Hp. unfold persistedGroups in Hp.
    unfold loadAllowedGroups, bind, getWorld, modify. cbv beta iota.
    destruct (files w !! "allowed-groups.json") as [[| [s | d | l]] |];
      try discriminate Hp.
    injection Hp as ->.
    unfold worldOf. cbn [fst snd allowedGroups setAllowedGroups].
    split; [apply fold_add_NoDup; exact Hnd | intros h; apply fold_add_elem].
  - intros Hnone. unfold loadAllowedGroups, bind, getWorld. cbv beta iota.
    rewrite Hnone. reflexivity.
Qed.

(** ** Readiness and status *)

(** The status that the owner is told is the one of the last of the two
    events: [Online] after [ready], [Offline] after [auth_failure]; the
    two listeners leave the allow-list and the disk alone, and [ready]
    tells the owner that the bot is online. *)
Theorem status_follows_last_event x message w :
  from message = OWNER_NUMBER ->
  JS.startsWith "!" (body message) = true ->
  parseCommand (body message) = "status" ->
  eventsOf (onReady w) = [SendText OWNER_NUMBER Text.online] /\
  eventsOf (onAuthFailure w) = [] /\
  eventsOf (onMessage x message (worldOf (onReady w))) =
    [GetChat; GetContact;
     Reply (statusText true (JSSet.size (allowedGroups w)))] /\
  eventsOf (onMessage x message (worldOf (onAuthFailure w))) =
    [GetChat; GetContact;
     Reply (statusText false (JSSet.size (allowedGroups w)))] /\
  files (worldOf (onReady w)) = files w /\
  files (worldOf (onAuthFailure w)) = files w.
Proof.
  intros Ho Hm Hc.
  split; [reflexivity |]. split; [reflexivity |].
  rewrite !onMessage_owner by assumption. rewrite Hc, !dispatch_status.
  repeat split.
Qed.

(** ** The directory of the upload middleware *)

(** The [destination] callback always hands over [uploads], and the
    directory is there afterwards: it is created when nothing is at that
    path and left alone otherwise; no other path is touched. *)
Theorem storage_destination_is_there w :
  resultOf (storageDestination w) = Ok "uploads" /\
  is_Some (files (worldOf (storageDestination w)) !! "uploads") /\
  (forall p, p <> "uploads" ->
             files (worldOf (storageDestination w)) !! p = files w !! p) /\
  (is_Some (files w !! "uploads") -> storageDestination w = (Ok "uploads", w, [])) /\
  (files w !! "uploads" = None ->
   storageDestination w =
     (Ok "uploads", setFiles (<["uploads" := Dir]> (files w)) w, [MkDir "uploads"])).
Proof.
  unfold storageDestination, bind, existsSync, mkdirSync, ret. cbv beta iota zeta.
  destruct (files w !! "uploads") as [node |] eqn:Hl.
  - rewrite bool_decide_eq_true_2 by eauto. cbn [negb]. cbv beta iota.
    unfold resultOf, worldOf. cbn [fst snd].
    repeat split; [rewrite Hl; eauto | discriminate].
  - rewrite bool_decide_eq_false_2 by (intros [? ?]; discriminate).
    cbn [negb]. cbv beta iota. unfold resultOf, worldOf. cbn [fst snd files setFiles].
    split; [reflexivity |]. split; [rewrite lookup_insert_eq; eauto |].
    split; [intros p Hp; apply lookup_insert_ne; congruence |].
    split; [intros [? ?]; discriminate | reflexivity].
Qed.

(** ** Download that cannot write *)

(** The command [download] when the temporary file cannot be opened. *)
Lemma downloadFile_open_error x message w url rest response :
  axiosGet x url = Some response ->
  let path := Path.join "temp" (downloadFilename url response) in
  let tempExists := bool_decide (is_Some (files w !! "temp")) in
  let disk := if tempExists then files w else <["temp" := Dir]> (files w) in
  streamOutcome x = StreamOpenError \/ disk !! path = Some Dir ->
  downloadFile x message (url :: rest) w =
    (Ok tt,
     setFiles disk w,
     [Reply Text.downloading; HttpGet url] ++
     (if tempExists then [] else [MkDir "temp"]) ++
     [CreateWriteStream path; ConsoleError "Error downloading file:";
      Reply Text.downloadFailed]).
Proof.
  intros Hax path tempExists disk Hopen.
  unfold downloadFile, downloadStart, tryCatch, bind, reply, emit, axios,
    existsSync, ret.
  cbv beta iota. rewrite Hax. cbv beta iota zeta.
  fold path. fold tempExists.
  assert (forall w0 : World,
             files w0 = disk ->
             pipeToFile x path (responseBody response) w0 =
               (Ok OnError, w0, [CreateWriteStream path])) as Hpipe.
  { intros w0 Hw0. unfold pipeToFile. rewrite Hw0.
    destruct Hopen as [-> | ->]; [| reflexivity].
    destruct (disk !! path) as [[| c] |]; reflexivity. }
  unfold disk in *. destruct tempExists; cbn [negb]; cbv beta iota.
  - rewrite Hpipe by reflexivity. cbv beta iota. destruct w; reflexivity.
  - unfold mkdirSync. cbv beta iota.
    rewrite Hpipe by reflexivity. reflexivity.
Qed.

(** When the temporary file cannot be opened, because the stream fails to
    open it or because a directory is at its path, the sender is told that
    the download failed, nothing is sent, and the disk is as before, but
    for the directory [temp]. *)
Theorem download_cannot_open x message w url rest response :
  from message <> "status@broadcast" ->
  permitted message w ->
  JS.startsWith "!" (body message) = true ->
  parseCommand (body message) = "download" ->
  parseArgs (body message) = url :: rest ->
  axiosGet x url = Some response ->
  let path := Path.join "temp" (downloadFilename url response) in
  let tempExists := bool_decide (is_Some (files w !! "temp")) in
  let disk := if tempExists then files w else <["temp" := Dir]> (files w) in
  streamOutcome x = StreamOpenError \/ disk !! path = Some Dir ->
  onMessage x message w =
    (Ok tt,
     setFiles disk w,
     [GetChat; GetContact; Reply Text.downloading; HttpGet url] ++
     (if tempExists then [] else [MkDir "temp"]) ++
     [CreateWriteStream path; ConsoleError "Error downloading file:";
      Reply Text.downloadFailed]).
Proof.
  intros Hb Hp Hm Hc Ha Hax path tempExists disk Hopen.
  rewrite onMessage_dispatch by assumption.
  rewrite Hc, Ha, dispatch_download.
  rewrite (downloadFile_open_error x message w url rest response Hax Hopen).
  reflexivity.
Qed.


(** ** Parsing, the other way round *)

(** A body written as the marker, a name and arguments with one space
    between them is read back as that name in lower case and those
    arguments, when none of them has a space inside. *)
Theorem parse_of_joined name args :
  Forall (fun p => hasChar JS.SPACE p = false) (name :: args) ->
  let body := "!" +:+ JS.join JS.SPACE (name :: args) in
  JS.startsWith "!" body = true /\
  parseCommand body = JS.toLowerCase name /\
  parseArgs body = args.
Proof.
  intros Hpieces body.
  assert (JS.split JS.SPACE body = String "!"%char name :: args) as Hsplit.
  { unfold body.
    change ("!" +:+ JS.join JS.SPACE (name :: args))
      with (String "!"%char (JS.join JS.SPACE (name :: args))).
    set (joined := JS.join JS.SPACE (name :: args)).
    change (JS.split JS.SPACE (String "!"%char joined))
      with (match JS.split JS.SPACE joined with
            | p :: ps => String "!"%char p :: ps
            | [] => [String "!"%char EmptyString]
            end).
    unfold joined. rewrite split_join by exact Hpieces. reflexivity. }
  split; [reflexivity |].
  unfold parseCommand, parseArgs. rewrite Hsplit. split; reflexivity.
Qed.

(** ** The further properties at sample inputs *)

Lemma allow_list_changes_only_by_owner_witness :
  from (Sample.ownerSays "!addgroup") = OWNER_NUMBER /\
  isGroup (chat (Sample.ownerSays "!addgroup")) = true /\
  JS.startsWith "!" (body (Sample.ownerSays "!addgroup")) = true /\
  (parseCommand (body (Sample.ownerSays "!addgroup")) = "addgroup" \/
   parseCommand (body (Sample.ownerSays "!addgroup")) = "removegroup").
Proof.
  apply (allow_list_changes_only_by_owner Sample.fine
           (Sample.ownerSays "!addgroup") Sample.start).
  intros H. vm_compute in H. discriminate H.
Defined.

Lemma allow_list_stays_without_repetition_witness :
  NoDup (allowedGroups
           (worldOf (onMessage Sample.fine (Sample.ownerSays "!addgroup")
                       Cases.groupAllowed))).
Proof.
  apply (allow_list_stays_without_repetition Sample.fine
           (Sample.ownerSays "!addgroup") Cases.groupAllowed).
  apply NoDup_singleton.
Defined.

Lemma addgroup_by_owner_witness :
  allowedGroups
    (worldOf (onMessage Sample.fine (Sample.ownerSays "!addgroup") Sample.start))
  = [chat_id Sample.group] /\
  allowedGroups
    (worldOf (onMessage Sample.fine (Sample.ownerSays "!addgroup")
                Cases.groupAllowed))
  = [chat_id Sample.group].
Proof.
  split.
  - destruct (addgroup_by_owner Sample.fine (Sample.ownerSays "!addgroup")
                Sample.start eq_refl eq_refl eq_refl eq_refl)
      as (_ & _ & Hnew & _).
    apply Hnew. apply not_elem_of_nil.
  - destruct (addgroup_by_owner Sample.fine (Sample.ownerSays "!addgroup")
                Cases.groupAllowed eq_refl eq_refl eq_refl eq_refl)
      as (_ & Hold & _).
    apply Hold. apply list_elem_of_here.
Defined.

Lemma removegroup_by_owner_witness :
  allowedGroups
    (worldOf (onMessage Sample.fine (Sample.ownerSays "!removegroup")
                Sample.start))
  = [].
Proof.
  destruct (removegroup_by_owner Sample.fine (Sample.ownerSays "!removegroup")
              Sample.start eq_refl eq_refl eq_refl eq_refl)
    as (_ & _ & Hgone & _).
  apply Hgone. apply not_elem_of_nil.
Defined.

Lemma group_commands_in_direct_chat_witness :
  onMessage Sample.fine (Cases.ownerDirect "!addgroup") Sample.start =
    (Ok tt, Sample.start, [GetChat; GetContact; GetChat; Reply Text.groupsOnly]).
Proof.
  apply (group_commands_in_direct_chat Sample.fine
           (Cases.ownerDirect "!addgroup") Sample.start);
    [reflexivity | reflexivity | reflexivity | left; reflexivity].
Defined.

Lemma owner_commands_ignored_for_others_witness :
  onMessage Sample.fine (Sample.strangerSays "!removegroup") Cases.groupAllowed
    = (Ok tt, Cases.groupAllowed, []) \/
  onMessage Sample.fine (Sample.strangerSays "!removegroup") Cases.groupAllowed
    = (Ok tt, Cases.groupAllowed, [GetChat; GetContact]).
Proof.
  apply (owner_commands_ignored_for_others Sample.fine
           (Sample.strangerSays "!removegroup") Cases.groupAllowed);
    [discriminate | right; left; reflexivity].
Defined.

Lemma unknown_command_reply_witness :
  onMessage Sample.fine (Sample.ownerSays "!ping now") Sample.start =
    (Ok tt, Sample.start, [GetChat; GetContact; Reply Text.unknown]).
Proof.
  apply (unknown_command_reply Sample.fine (Sample.ownerSays "!ping now")
           Sample.start);
    [discriminate | left; reflexivity | reflexivity |].
  change (parseCommand (body (Sample.ownerSays "!ping now"))) with "ping".
  rewrite !not_elem_of_cons. repeat split; try discriminate.
  apply not_elem_of_nil.
Defined.

Lemma listgroups_by_owner_witness :
  onMessage Sample.fine (Sample.ownerSays "!listgroups") Cases.groupAllowed =
    (Ok tt, Cases.groupAllowed,
     [GetChat; GetContact; GetChatById (chat_id Sample.group);
      Reply ("*Allowed Groups:*" +:+ JS.nl +:+ JS.nl +:+ "- Family" +:+ JS.nl)]).
Proof.
  destruct (listgroups_by_owner Sample.fine (Sample.ownerSays "!listgroups")
              Cases.groupAllowed eq_refl eq_refl eq_refl) as [_ Hsome].
  apply Hsome. discriminate.
Defined.

Lemma download_request_fails_witness :
  onMessage Cases.requestFails
    (Sample.ownerSays "!download https://example.com/a.txt") Sample.start =
    (Ok tt, Sample.start,
     [GetChat; GetContact; Reply Text.downloading;
      HttpGet "https://example.com/a.txt";
      ConsoleError "Error downloading file:"; Reply Text.downloadFailed]).
Proof.
  apply (download_request_fails Cases.requestFails
           (Sample.ownerSays "!download https://example.com/a.txt")
           Sample.start "https://example.com/a.txt" []);
    [discriminate | left; reflexivity | reflexivity | reflexivity
    | reflexivity | reflexivity].
Defined.


Lemma download_named_after_url_witness :
  downloadFilename "https://example.com/a.txt" Sample.response = "a.txt" /\
  Path.join "temp" (downloadFilename "https://example.com/a.txt" Sample.response)
    = "temp/a.txt".
Proof.
  destruct (download_named_after_url "https://example.com" "a.txt"
              Sample.response eq_refl eq_refl) as [Hname Hpath].
  split; [exact Hname | apply Hpath; discriminate].
Defined.

Lemma upload_names_differ_witness :
  (7 = 7)%N /\ extensionOf "image/png" = extensionOf "application/png".
Proof.
  apply (upload_names_differ 7 7 "image/png" "application/png"). reflexivity.
Defined.

Lemma header_names_file_witness :
  downloadFilename "https://example.com/download?id=7" Cases.namedResponse
    = "report.pdf".
Proof.
  apply (header_names_file "https://example.com/download?id=7"
           Cases.namedResponse "report.pdf");
    [reflexivity | discriminate | reflexivity | reflexivity | reflexivity].
Defined.

Lemma quoted_header_keeps_closing_quote_witness :
  downloadFilename "https://example.com/download?id=7" Cases.quotedResponse
    = "a.txt" +:+ String JS.DQUOTE EmptyString.
Proof.
  apply (quoted_header_keeps_closing_quote "https://example.com/download?id=7"
           Cases.quotedResponse "a.txt");
    reflexivity.
Defined.

Lemma upload_failures_are_reported_witness :
  onMessage Sample.fine (Cases.ownerRepliesToLostFile "!upload") Sample.start =
    (Ok tt, Sample.start,
     [GetChat; GetContact; GetQuotedMessage; Reply Text.processing;
      DownloadMedia; Reply Text.mediaFailed]) /\
  onMessage Sample.writesFail (Sample.ownerRepliesToPicture "!upload")
    Sample.start =
    (Ok tt, Sample.start,
     [GetChat; GetContact; GetQuotedMessage; Reply Text.processing;
      DownloadMedia; ConsoleError "Error uploading file:";
      Reply Text.uploadFailed]).
Proof.
  split.
  - destruct (upload_failures_are_reported Sample.fine
                (Cases.ownerRepliesToLostFile "!upload") Sample.start)
      as (Hnone & _);
      [discriminate | left; reflexivity | reflexivity | reflexivity
      | reflexivity | reflexivity |].
    apply Hnone. reflexivity.
  - destruct (upload_failures_are_reported Sample.writesFail
                (Sample.ownerRepliesToPicture "!upload") Sample.start)
      as (_ & _ & Hwrite);
      [discriminate | left; reflexivity | reflexivity | reflexivity
      | reflexivity | reflexivity |].
    apply (Hwrite Sample.picture); reflexivity.
Defined.

Lemma allow_list_survives_restart_witness :
  allowedGroups
    (worldOf (loadAllowedGroups
                (mkWorld [] false
                   (files (worldOf (onSigint Sample.fine Cases.groupAllowed))))))
  = [chat_id Sample.group].
Proof.
  destruct (allow_list_survives_restart Sample.fine Cases.groupAllowed)
    as [_ Hload]; [apply NoDup_singleton | reflexivity |].
  exact Hload.
Defined.

Lemma load_merges_file_witness :
  NoDup (allowedGroups (worldOf (loadAllowedGroups Cases.fileNamesGroupTwice))) /\
  chat_id Sample.group
    ∈ allowedGroups (worldOf (loadAllowedGroups Cases.fileNamesGroupTwice)).
Proof.
  destruct (load_merges_file Cases.fileNamesGroupTwice) as [Hfile _];
    [apply NoDup_nil_2 |].
  destruct (Hfile [chat_id Sample.group; chat_id Sample.group]) as [Hnd Hmem];
    [vm_compute; reflexivity |].
  split; [exact Hnd |]. apply Hmem. right. apply list_elem_of_here.
Defined.

Lemma status_follows_last_event_witness :
  eventsOf (onMessage Sample.fine (Sample.ownerSays "!status")
              (worldOf (onAuthFailure Sample.start))) =
    [GetChat; GetContact;
     Reply ("*Bot Status:* Offline" +:+ JS.nl +:+ JS.nl
            +:+ "*Allowed Groups:* 0" +:+ JS.nl)].
Proof.
  destruct (status_follows_last_event Sample.fine (Sample.ownerSays "!status")
              Sample.start eq_refl eq_refl eq_refl)
    as (_ & _ & _ & Hoff & _).
  exact Hoff.
Defined.

Lemma storage_destination_is_there_witness :
  storageDestination Sample.start =
    (Ok "uploads", setFiles (<["uploads" := Dir]> (files Sample.start)) Sample.start,
     [MkDir "uploads"]).
Proof.
  destruct (storage_destination_is_there Sample.start) as (_ & _ & _ & _ & Hnew).
  apply Hnew. reflexivity.
Defined.

Lemma download_cannot_open_witness :
  eventsOf (onMessage Cases.openFails
              (Sample.ownerSays "!download https://example.com/a.txt")
              Sample.start) =
    [GetChat; GetContact; Reply Text.downloading;
     HttpGet "https://example.com/a.txt"; MkDir "temp";
     CreateWriteStream "temp/a.txt";
     ConsoleError "Error downloading file:"; Reply Text.downloadFailed].
Proof.
  rewrite (download_cannot_open Cases.openFails
             (Sample.ownerSays "!download https://example.com/a.txt")
             Sample.start "https://example.com/a.txt" [] Sample.response)
    by first
         [ discriminate | left; reflexivity | reflexivity ].
  reflexivity.
Defined.


Lemma parse_of_joined_witness :
  parseCommand "!Download https://example.com/a.txt now" = "download" /\
  parseArgs "!Download https://example.com/a.txt now"
    = ["https://example.com/a.txt"; "now"].
Proof.
  destruct (parse_of_joined "Download" ["https://example.com/a.txt"; "now"])
    as (_ & Hname & Hargs).
  - repeat constructor.
  - split; [exact Hname | exact Hargs].
Defined.

(** A name in the header may lead out of [temp]. *)
Example header_can_leave_temp :
  Path.join "temp" "../outside.txt" = "outside.txt".
Proof. reflexivity. Qed.

(** A write of [allowed-groups.json] that breaks off after the file was
    opened leaves no array in it: the failure is logged all the same. *)
Example removegroup_write_breaks_off :
  let w1 := worldOf (onMessage Sample.fine (Sample.ownerSays "!addgroup")
                       Sample.start) in
  let o := onMessage Cases.writesBreakOff (Sample.ownerSays "!removegroup") w1 in
  persistedGroups w1 = Some [chat_id Sample.group] /\
  persistedGroups (worldOf o) = None /\
  eventsOf o =
    [GetChat; GetContact; GetChat; Reply Text.groupRemoved;
     WriteFile "allowed-groups.json" (Bytes EmptyString);
     ConsoleError "Error saving allowed groups:"].
Proof. cbv zeta. repeat split; vm_compute; reflexivity. Qed.
